(** * dt-form-renderer: the form renderer and its field wrapper

    A shallow embedding of
      - [packages/core/src/components/formRenderer/index.tsx]
        ([valueGetter], [onValuesChange], the [defaultExtraData] effect), and
      - the field wrapper component [FormItemWrapper]
        (widget resolution, mount effect, service trigger props, render),
    together with the properties of the interaction engine that can be
    stated over them.

    JavaScript values are split in two layers: [data] are the plain values
    that live in the form store and in the extra-state, [jsval] adds
    functions of the evaluation scope on top (a deferred property).
    Synchronous code runs in the monad [M]: it reads and passes on the
    [World] (form store and extra-state), may throw, and records every call
    it makes to a collaborator that is not part of these two files. *)

From stdpp Require Import gmap strings list fin_maps.
From Stdlib Require Import ZArith.

Set Warnings "-register-all,-clear-no-such-hyp".
Open Scope Z_scope.

(** ** Values *)

Inductive data : Type :=
  | DUndefined
  | DNull
  | DBool (b : bool)
  | DNum (n : Z)
  | DStr (s : string)
  | DArr (l : list data)
  | DObj (o : gmap string data).

(** A store is a JavaScript object used as a mapping from keys to values:
    the form values ([form.getFieldsValue()]) and the extra-state. *)
Abbreviation store := (gmap string data).

(** What a JavaScript exception carries. *)
Inductive error : Type :=
  | TypeError (msg : string)
  | Thrown (v : data).

Inductive outcome (A : Type) : Type :=
  | Ok (a : A)
  | Throw (e : error).
Arguments Ok {A} a.
Arguments Throw {A} e.

Record MutableRefObject (A : Type) : Type := { current : A }.
Arguments current {A} _.

(** [ScopeType], as [valueGetter] builds it: the current form values and the
    reference to the extra-state. *)
Record ScopeType : Type := {
  formData : store;
  extraDataRef : MutableRefObject store
}.

Inductive jsval : Type :=
  | JData (d : data)
  | JFun (f : ScopeType -> outcome jsval).

(** [typeof value === 'function'] *)
Definition is_function (v : jsval) : bool :=
  match v with JFun _ => true | JData _ => false end.

Definition truthy_data (d : data) : bool :=
  match d with
  | DUndefined | DNull => false
  | DBool b => b
  | DNum n => negb (n =? 0)
  | DStr s => negb (String.eqb s "")
  | DArr _ | DObj _ => true
  end.

(** JavaScript truthiness; a function is an object, hence truthy. *)
Definition truthy (v : jsval) : bool :=
  match v with JData d => truthy_data d | JFun _ => true end.

(** [a ?? b] on plain values. *)
Definition nullish_data (d : data) : bool :=
  match d with DUndefined | DNull => true | _ => false end.

Definition coalesce_data (a b : data) : data :=
  if nullish_data a then b else a.

(** [o.k] on an object that is present: [undefined] for a missing key. *)
Definition get_prop (o : store) (k : string) : data :=
  default DUndefined (o !! k).

(** [{...a, ...b}]: the keys of [b] win. *)
Definition spread2 (a b : store) : store := b ∪ a.

(** [Object.keys] of an object given by its entries in insertion order. *)
Definition Object_keys {A} (o : list (string * A)) : list string := o.*1.

(** [Array.from(new Set(l))]: the first occurrence of every element, in the
    order of [l]. *)
Fixpoint Set_add_all (seen : list string) (l : list string) : list string :=
  match l with
  | [] => []
  | x :: t =>
      if bool_decide (x ∈ seen) then Set_add_all seen t
      else x :: Set_add_all (x :: seen) t
  end.

Definition Array_from_Set (l : list string) : list string := Set_add_all [] l.

(** [l.includes(x)] *)
Definition includes `{EqDecision A} (l : list A) (x : A) : bool :=
  bool_decide (x ∈ l).

(** ** Collaborators *)

Inductive ServiceTriggerEnum : Type :=
  | onChange | onMount | onFocus | onBlur | onSearch.

Global Instance ServiceTriggerEnum_eq_dec : EqDecision ServiceTriggerEnum.
Proof. solve_decision. Defined.

(** The state the code reads through [form] and through [extraDataRef]. *)
Record World : Type := {
  formValues : store;  (* form.getFieldsValue() *)
  extraData : store    (* extraDataRef.current *)
}.

(** A collaborator's method: it may change the world and may throw. *)
Definition Eff (A : Type) : Type := World -> outcome A * World.

(** The calls made to code outside the two source files.  The
    [extraDataRef] that the source passes along is the handle of
    [extraData] in the world, so it is not repeated in the record of a
    call. *)
Inductive Call : Type :=
  | CWarning (msg scope : string)
  | CCalcDerivedValue (field : string) (valueDerived : jsval)
  | CPublishDepEvent (field : string) (returned : outcome (list string))
  | CPublishServiceEvent (field : string) (kind : ServiceTriggerEnum)
      (formData : store) (args : option (list data))
  | CBatchPublishServiceEvent (fields : list string)
      (kind : ServiceTriggerEnum) (formData : store)
  | CPropsOnValuesChange (changedValues : list (string * data))
      (values extra : store).

(** ** The monad of synchronous code *)

Record Res (A : Type) : Type := {
  res : outcome A;
  world : World;
  calls : list Call
}.
Arguments res {A} _.
Arguments world {A} _.
Arguments calls {A} _.

Definition M (A : Type) : Type := World -> Res A.

Definition ret {A} (a : A) : M A := fun w =>
  {| res := Ok a; world := w; calls := [] |}.

Definition bind {A B} (m : M A) (f : A -> M B) : M B := fun w =>
  let r := m w in
  match res r with
  | Ok a =>
      let r' := f a (world r) in
      {| res := res r'; world := world r'; calls := calls r ++ calls r' |}
  | Throw e => {| res := Throw e; world := world r; calls := calls r |}
  end.

Declare Scope M_scope.
Delimit Scope M_scope with M.
Bind Scope M_scope with M.
Notation "x ← y ; z" := (bind y (fun x => z))
  (at level 20, y at level 100, z at level 200, only parsing) : M_scope.
Notation "y ;; z" := (bind y (fun _ => z))
  (at level 100, z at level 200, only parsing, right associativity) : M_scope.
Open Scope M_scope.

Definition throw {A} (e : error) : M A := fun w =>
  {| res := Throw e; world := w; calls := [] |}.

(** A call to a collaborator: recorded, then run. *)
Definition invoke {A} (c : Call) (e : Eff A) : M A := fun w =>
  {| res := (e w).1; world := (e w).2; calls := [c] |}.

(** The same, for a call whose record keeps what it returned. *)
Definition invoke_returning {A} (c : outcome A -> Call) (e : Eff A) : M A :=
  fun w => {| res := (e w).1; world := (e w).2; calls := [c (e w).1] |}.

(** [form.getFieldsValue()] *)
Definition getFieldsValue : M store := fun w =>
  {| res := Ok (formValues w); world := w; calls := [] |}.

(** [extraDataRef.current] *)
Definition readExtraData : M store := fun w =>
  {| res := Ok (extraData w); world := w; calls := [] |}.

(** Modelled from the spec: [updateExtraData], the second component of
    [useExtraData] (module [extraDataContext], not in the sources), is the
    explicit update entry point of the Shared Extra-State: the object it is
    given becomes the current extra-state. *)
Definition updateExtraData (e : store) : M unit := fun w =>
  {| res := Ok tt;
     world := {| formValues := formValues w; extraData := e |};
     calls := [] |}.

(** [warning(msg, scope)] of [utils/report]. *)
Definition warning (msg scope : string) : M unit :=
  invoke (CWarning msg scope) (fun w => (Ok tt, w)).

(** [arr.filter(p)] with a predicate that runs in [M]. *)
Fixpoint filterM {A} (p : A -> M bool) (l : list A) : M (list A) :=
  match l with
  | [] => ret []
  | x :: t =>
      b ← p x;
      r ← filterM p t;
      ret (if b then x :: r else r)
  end.

(** ** Field metadata *)

(** [FieldItemMetaType], with the fields [FormItemWrapper] reads.  The
    deferred properties are [jsval]s; an absent property is
    [JData DUndefined]. *)
Record FieldItemMetaType : Type := {
  fieldName : string;
  valuePropName : data;
  initialValue : data;
  label : jsval;
  labelAlign : data;
  widget : string;
  widgetProps : list (string * jsval);
  hidden : jsval;
  rules : jsval;
  tooltip : data;
  colon : data;
  extra : data;
  trigger : data;
  valueDerived : jsval;
  servicesTriggers : list ServiceTriggerEnum;
  colProps : option store;
  destroy : jsval;
  required : jsval;
  noStyle : data
}.

(** ** formRenderer/index.tsx *)

(** The methods of [PubSubCenter] (module [interaction/pubSubCenter], not in
    the sources) that the two files call. *)
Record PubSubCenter : Type := {
  publishDepEvent : string -> Eff (list string);
  publishServiceEvent :
    string -> ServiceTriggerEnum -> store -> option (list data) -> Eff unit;
  batchPublishServiceEvent :
    list string -> ServiceTriggerEnum -> store -> Eff unit
}.

(** What [onValuesChange] closes over: the props it uses, the
    [formItemsMeta] state and [pubSubCenterRef.current] ([None] for
    [null]). *)
Record FormRenderer_instance : Type := {
  props_onValuesChange :
    option (list (string * data) -> store -> store -> Eff unit);
  formItemsMeta : list FieldItemMetaType;
  pubSubCenterRef : option PubSubCenter
}.

(** [valueGetter], lines 127-137. *)
Definition valueGetter (value : jsval) : M jsval := fun w =>
  let scope := {| formData := formValues w;
                  extraDataRef := {| current := extraData w |} |} in
  match value with
  | JData _ => {| res := Ok value; world := w; calls := [] |}
  | JFun f => {| res := f scope; world := w; calls := [] |}
  end.

(** [pubSubCenterRef.current.m]: reading a property of [null] throws. *)
Definition pubSubCenterRef_current (c : FormRenderer_instance)
  : M PubSubCenter :=
  match pubSubCenterRef c with
  | Some bus => ret bus
  | None => throw (TypeError "Cannot read properties of null")
  end.

(** The [changedFields.forEach] of [onValuesChange], lines 144-148, started
    with [interactFields = acc]. *)
Fixpoint collectInteractFields (c : FormRenderer_instance)
    (changedFields : list string) (acc : list string) : M (list string) :=
  match changedFields with
  | [] => ret acc
  | fieldName :: rest =>
      bus ← pubSubCenterRef_current c;
      fieldsName ← invoke_returning (CPublishDepEvent fieldName)
                     (publishDepEvent bus fieldName);
      collectInteractFields c rest (acc ++ fieldsName)
  end.

(** The callback of the filter, lines 151-153: [!valueGetter(item.destroy)]. *)
Definition not_destroyed (item : FieldItemMetaType) : M bool :=
  d ← valueGetter (destroy item);
  ret (negb (truthy d)).

(** [shouldRenderFields], lines 150-154. *)
Definition shouldRenderFields (c : FormRenderer_instance) : M (list string) :=
  items ← filterM not_destroyed (formItemsMeta c);
  ret (fieldName <$> items).

(** The [destroy] expression of [m] evaluates, in the world [w], to a falsy
    value, respectively to a truthy one. *)
Definition destroy_false (w : World) (m : FieldItemMetaType) : Prop :=
  ∃ v, res (valueGetter (destroy m) w) = Ok v ∧ truthy v = false.

Definition destroy_true (w : World) (m : FieldItemMetaType) : Prop :=
  ∃ v, res (valueGetter (destroy m) w) = Ok v ∧ truthy v = true.

(** The renderable set: the names of the fields whose [destroy] evaluates
    to a falsy value. *)
Definition renderable (c : FormRenderer_instance) (w : World) (x : string)
  : Prop :=
  ∃ m, m ∈ formItemsMeta c ∧ fieldName m = x ∧ destroy_false w m.

(** The record of the calls of [publishDepEvent] that returned [deps], one
    for each changed field. *)
Definition depEvent_calls (changed : list string) (deps : list (list string))
  : list Call :=
  zip_with (fun f d => CPublishDepEvent f (Ok d)) changed deps.

(** [allPubServiceFields], lines 157-160. *)
Definition allPubServiceFields
    (changedFields interactFields shouldRender : list string) : list string :=
  List.filter (fun fieldName => includes shouldRender fieldName)
              (changedFields ++ interactFields).

(** [onValuesChange], lines 139-174. *)
Definition onValuesChange (c : FormRenderer_instance)
    (changedValues : list (string * data)) : M unit :=
  let changedFields := Object_keys changedValues in
  interactFields ← collectInteractFields c changedFields [];
  shouldRender ← shouldRenderFields c;
  let all := allPubServiceFields changedFields interactFields shouldRender in
  bus ← pubSubCenterRef_current c;
  values ← getFieldsValue;
  invoke (CBatchPublishServiceEvent (Array_from_Set all) onChange values)
         (batchPublishServiceEvent bus (Array_from_Set all) onChange values);;
  match props_onValuesChange c with
  | None => ret tt
  | Some callback =>
      values' ← getFieldsValue;
      extra' ← readExtraData;
      invoke (CPropsOnValuesChange changedValues values' extra')
             (callback changedValues values' extra')
  end.

(** The callback that the [defaultExtraData] effect hands to [setTimeout],
    lines 122-124: it runs later, on the extra-state of that moment. *)
Definition defaultExtraData_timeout (defaultExtraData : store) : M unit :=
  cur ← readExtraData;
  updateExtraData (spread2 cur defaultExtraData).

(** The extra-state that the configuration effect installs, lines 79-82:
    [{...defaultExtraData, serviceLoading: defaultExtraData?.serviceLoading ?? {}}]. *)
Definition configExtraData (defaultExtraData : option store) : store :=
  let d := default ∅ defaultExtraData in
  <["serviceLoading" :=
      coalesce_data (get_prop d "serviceLoading") (DObj ∅)]> d.

(** ** The field wrapper component, [FormItemWrapper] *)

(** A widget implementation: the placeholder [NotFoundWidget] or a
    component known by its name. *)
Inductive ComponentType : Type :=
  | NotFoundWidget
  | Component (name : string).

(** What a widget lookup can return at run time. *)
Inductive widget_lookup : Type :=
  | LUndefined
  | LNull
  | LFound (c : ComponentType).

(** [a ?? b] on lookups. *)
Definition coalesce_lookup (a b : widget_lookup) : widget_lookup :=
  match a with
  | LUndefined | LNull => b
  | LFound _ => a
  end.

(** An event handler built by [getServiceTriggerProps]: the closure
    [(...args) => publishServiceEvent(fieldName, kind, formData, extraData, args)]
    given by what it captures, and whether it went through [debounce]. *)
Record Handler : Type := {
  h_field : string;
  h_kind : ServiceTriggerEnum;
  h_formData : store;
  h_debounced : bool
}.

(** [serviceTriggerProps]; [None] is [null]. *)
Record ServiceTriggerProps : Type := {
  sp_onBlur : option Handler;
  sp_onFocus : option Handler;
  sp_onSearch : option Handler
}.

Record FormItemWrapperProps : Type := {
  formItemMeta : FieldItemMetaType;
  defaultSpan : data;
  getWidgets : string -> widget_lookup;
  calcDerivedValue : string -> jsval -> Eff unit;
  p_publishServiceEvent :
    string -> ServiceTriggerEnum -> store -> option (list data) -> Eff unit;
  p_valueGetter : jsval -> M jsval;
  debounceSearch : option bool
}.

(** A prop of the rendered widget. *)
Inductive WidgetProp : Type :=
  | PValue (v : jsval)
  | PHandler (h : Handler).

Record WidgetElement : Type := {
  w_type : widget_lookup;
  w_props : gmap string WidgetProp
}.

(** The inner [<FormItem name=... >]; [fi_required] is [None] when the
    [required] prop is not passed. *)
Record FormItemElement : Type := {
  fi_name : string;
  fi_initialValue : data;
  fi_tooltip : data;
  fi_label : jsval;
  fi_rules : jsval;
  fi_hidden : jsval;
  fi_colon : data;
  fi_extra : data;
  fi_labelAlign : data;
  fi_trigger : data;
  fi_valuePropName : data;
  fi_required : option jsval;
  fi_noStyle : data;
  fi_validateFirst : bool;
  fi_child : WidgetElement
}.

(** [<Col {...colProps} span={...}>] *)
Record ColElement : Type := {
  col_props : store;
  col_child : FormItemElement
}.

(** The [useMemo] that resolves [Widget], lines 67-75, for whatever is
    passed as the [getWidgets] prop: the prop is optional in [FormRenderer]
    (index.tsx l.32, passed through at l.205), line 68 calls it unguarded,
    and the caller's function may itself throw.  [None] is a prop that was
    not supplied: calling it is a [TypeError].  [internalWidgets] is the
    registry imported from [../internalWidgets] (not in the sources). *)
Definition resolveWidget_passed (internalWidgets : string -> widget_lookup)
    (getWidgets : option (string -> outcome widget_lookup)) (widget : string)
  : M widget_lookup :=
  match getWidgets with
  | None => throw (TypeError "getWidgets is not a function")
  | Some lookup =>
      match lookup widget with
      | Throw e => throw e
      | Ok found =>
          let _widget := coalesce_lookup found (internalWidgets widget) in
          match _widget with
          | LNull =>
              warning ("widget named `" ++ widget ++ "` is not found!") "Widget";;
              ret (LFound NotFoundWidget)
          | _ => ret _widget
          end
      end
  end.

(** The memo of a component whose [getWidgets] prop is a function that
    returns, as [FormItemWrapperProps] declares it. *)
Definition resolveWidget (internalWidgets : string -> widget_lookup)
    (p : FormItemWrapperProps) : M widget_lookup :=
  resolveWidget_passed internalWidgets
    (Some (fun id => Ok (getWidgets p id))) (widget (formItemMeta p)).

(** What is passed as [getWidgets] is a function that returns [l] for
    [id]. *)
Definition passed_returns (getWidgets : option (string -> outcome widget_lookup))
    (id : string) (l : widget_lookup) : Prop :=
  ∃ lookup, getWidgets = Some lookup ∧ lookup id = Ok l.

(** A lookup that found nothing: [undefined] or [null]. *)
Definition lookup_misses (l : widget_lookup) : Prop :=
  l = LUndefined ∨ l = LNull.

(** The mount effect, lines 77-86. *)
Definition mountEffect (p : FormItemWrapperProps) : M unit :=
  let m := formItemMeta p in
  if includes (servicesTriggers m) onMount then
    values ← getFieldsValue;
    invoke (CPublishServiceEvent (fieldName m) onMount values None)
           (p_publishServiceEvent p (fieldName m) onMount values None)
  else ret tt.

(** One round of the [servicesTriggers.forEach] of
    [getServiceTriggerProps], lines 94-131. *)
Definition serviceTrigger_step (p : FormItemWrapperProps) (formData : store)
    (acc : ServiceTriggerProps) (trigger : ServiceTriggerEnum)
  : ServiceTriggerProps :=
  let f := fieldName (formItemMeta p) in
  let handler k deb :=
    {| h_field := f; h_kind := k; h_formData := formData; h_debounced := deb |} in
  let acc1 :=
    if bool_decide (trigger = onFocus)
    then {| sp_onBlur := sp_onBlur acc;
            sp_onFocus := Some (handler onFocus false);
            sp_onSearch := sp_onSearch acc |}
    else acc in
  let acc2 :=
    if bool_decide (trigger = onBlur)
    then {| sp_onBlur := Some (handler onBlur false);
            sp_onFocus := sp_onFocus acc1;
            sp_onSearch := sp_onSearch acc1 |}
    else acc1 in
  if bool_decide (trigger = onSearch)
  then {| sp_onBlur := sp_onBlur acc2;
          sp_onFocus := sp_onFocus acc2;
          sp_onSearch :=
            Some (handler onSearch
                    (match debounceSearch p with Some true => true | _ => false end)) |}
  else acc2.

(** The [onSearch] handler of lines 118-129, for a render that saw
    [formData]. *)
Definition search_handler (p : FormItemWrapperProps) (formData : store)
  : Handler :=
  {| h_field := fieldName (formItemMeta p);
     h_kind := onSearch;
     h_formData := formData;
     h_debounced := match debounceSearch p with Some true => true | _ => false end |}.

(** [getServiceTriggerProps], lines 88-133. *)
Definition getServiceTriggerProps (p : FormItemWrapperProps) (formData : store)
  : ServiceTriggerProps :=
  fold_left (serviceTrigger_step p formData)
            (servicesTriggers (formItemMeta p))
            {| sp_onBlur := None; sp_onFocus := None; sp_onSearch := None |}.

(** [widgetPropsGetter], lines 135-141, started with [widgetProps = acc]. *)
Fixpoint widgetPropsGetter_from (p : FormItemWrapperProps)
    (entries : list (string * jsval)) (acc : gmap string jsval)
  : M (gmap string jsval) :=
  match entries with
  | [] => ret acc
  | (key, value) :: rest =>
      v ← p_valueGetter p value;
      widgetPropsGetter_from p rest (<[key := v]> acc)
  end.

Definition widgetPropsGetter (p : FormItemWrapperProps)
    (_widgetProps : list (string * jsval)) : M (gmap string jsval) :=
  widgetPropsGetter_from p _widgetProps ∅.

(** [onBlur && (serviceProps.onBlur = onBlur)] and its two siblings, lines
    152-155. *)
Definition serviceProps_of (sp : ServiceTriggerProps) : gmap string WidgetProp :=
  let s0 : gmap string WidgetProp := ∅ in
  let s1 := match sp_onBlur sp with Some h => <["onBlur" := PHandler h]> s0 | None => s0 end in
  let s2 := match sp_onFocus sp with Some h => <["onFocus" := PHandler h]> s1 | None => s1 end in
  match sp_onSearch sp with Some h => <["onSearch" := PHandler h]> s2 | None => s2 end.

(** [hidden = false] in the destructuring of [formItemMeta], line 51. *)
Definition hidden_or_default (m : FieldItemMetaType) : jsval :=
  match hidden m with
  | JData DUndefined => JData (DBool false)
  | h => h
  end.

(** [colProps?.span ?? defaultSpan] *)
Definition col_span (p : FormItemWrapperProps) : data :=
  let m := formItemMeta p in
  coalesce_data
    (match colProps m with Some cp => get_prop cp "span" | None => DUndefined end)
    (defaultSpan p).

(** The JSX that the render function returns, lines 157-188.  Props are
    evaluated in the order in which the JSX lists them, a parent's props
    before its child. *)
Definition render_col (p : FormItemWrapperProps) (Widget : widget_lookup)
    (serviceProps : gmap string WidgetProp) : M ColElement :=
  let m := formItemMeta p in
  h ← p_valueGetter p (hidden_or_default m);
  let span := if truthy h then DNum 0 else col_span p in
  lbl ← p_valueGetter p (label m);
  rls ← p_valueGetter p (rules m);
  hid ← p_valueGetter p (hidden_or_default m);
  req ← match required m with
        | JData DUndefined => ret None
        | r => (v ← p_valueGetter p r; ret (Some v))
        end;
  wps ← widgetPropsGetter p (widgetProps m);
  ret {| col_props := <["span" := span]> (default ∅ (colProps m));
         col_child :=
           {| fi_name := fieldName m;
              fi_initialValue := initialValue m;
              fi_tooltip := tooltip m;
              fi_label := lbl;
              fi_rules := rls;
              fi_hidden := hid;
              fi_colon := colon m;
              fi_extra := extra m;
              fi_labelAlign := labelAlign m;
              fi_trigger := trigger m;
              fi_valuePropName := valuePropName m;
              fi_required := req;
              fi_noStyle := noStyle m;
              fi_validateFirst := true;
              fi_child :=
                {| w_type := Widget;
                   w_props := serviceProps ∪ (PValue <$> wps) |} |} |}.

(** The render function given to the outer [FormItem], lines 145-190.
    [None] is [null]. *)
Definition render_item (p : FormItemWrapperProps) (Widget : widget_lookup)
  : M (option ColElement) :=
  let m := formItemMeta p in
  d ← p_valueGetter p (destroy m);
  if truthy d then ret None
  else
    invoke (CCalcDerivedValue (fieldName m) (valueDerived m))
           (calcDerivedValue p (fieldName m) (valueDerived m));;
    values ← getFieldsValue;
    let serviceProps := serviceProps_of (getServiceTriggerProps p values) in
    el ← render_col p Widget serviceProps;
    ret (Some el).

(** Every property of the list evaluates to a value in [w]. *)
Definition all_evaluate (w : World) (qs : list jsval) : Prop :=
  ∀ q, q ∈ qs → ∃ v, res (valueGetter q w) = Ok v.

(** Some property of the list throws [e] in [w]. *)
Definition some_throws (w : World) (qs : list jsval) (e : error) : Prop :=
  ∃ q, q ∈ qs ∧ res (valueGetter q w) = Throw e.

(** The deferred properties that [render_col] evaluates, in order. *)
Definition evaluated_props (m : FieldItemMetaType) : list jsval :=
  [hidden_or_default m; label m; rules m; hidden_or_default m]
  ++ match required m with JData DUndefined => [] | r => [r] end
  ++ (widgetProps m).*2.

(** The form engine takes in what a render returned: the inner [FormItem]
    (its [name], its [initialValue]) is registered with the form before the
    effects of the component run, and [register] is what that does to the
    form values, which is the engine's business.  A render that returned
    [null] registers nothing. *)
Definition commit_element (register : FormItemElement -> World -> World)
    (el : option ColElement) : M unit := fun w =>
  {| res := Ok tt;
     world := match el with
              | Some col => register (col_child col) w
              | None => w
              end;
     calls := [] |}.

(** Mounting the component: the body with its [useMemo], the render
    function of the outer [FormItem], the registration of what it returned,
    and then the mount effect. *)
Definition FormItemWrapper_mount (register : FormItemElement -> World -> World)
    (internalWidgets : string -> widget_lookup)
    (p : FormItemWrapperProps) : M (option ColElement) :=
  Widget ← resolveWidget internalWidgets p;
  el ← render_item p Widget;
  commit_element register el;;
  mountEffect p;;
  ret el.


(** *** Event handlers at run time *)

(** The body of a handler closure: one call of [publishServiceEvent] with
    the captured field, kind and form data, and the arguments of the
    event. *)
Definition handler_body (p : FormItemWrapperProps) (h : Handler)
    (args : list data) : M unit :=
  invoke (CPublishServiceEvent (h_field h) (h_kind h) (h_formData h) (Some args))
         (p_publishServiceEvent p (h_field h) (h_kind h) (h_formData h) (Some args)).

Module Debounce.

(** Modelled from the spec: [debounce] of [../helpers] (not in the
    sources) has standard debounce semantics, a trailing invocation after
    a delay: a call (re)starts the timer and keeps its arguments, and
    when the timer runs out the wrapped function is called once, with the
    arguments of the latest call.  [pending] holds those arguments and
    the time at which the timer runs out. *)
Record timer : Type := { pending : option (list data * Z) }.

(** Modelled from the spec: no call is waiting for its delay. *)
Definition idle : timer := {| pending := None |}.

(** Modelled from the spec: a call at time [now] restarts the delay and
    replaces the arguments kept so far. *)
Definition call (wait now : Z) (args : list data) (t : timer) : timer :=
  {| pending := Some (args, now + wait) |}.

(** Modelled from the spec: time has reached [now]; the arguments to call
    the wrapped function with, if the timer has run out, and the timer
    afterwards. *)
Definition elapse (now : Z) (t : timer) : option (list data) * timer :=
  match pending t with
  | Some (args, deadline) =>
      if deadline <=? now then (Some args, idle) else (None, t)
  | None => (None, t)
  end.

End Debounce.

(** A task of the event loop (an event handler, a timer callback): an
    exception that leaves it does not stop the tasks that come after it. *)
Definition top_level (task : M unit) : M unit := fun w =>
  {| res := Ok tt; world := world (task w); calls := calls (task w) |}.

(** Time reaches [now]: a timer that has run out calls the handler body. *)
Definition fire_due (p : FormItemWrapperProps) (h : Handler) (now : Z)
    (t : Debounce.timer) : M Debounce.timer :=
  match Debounce.elapse now t with
  | (Some args, t') => top_level (handler_body p h args);; ret t'
  | (None, t') => ret t'
  end.

(** The handler [h] of one render is invoked at the given times with the
    given arguments, and time then runs on to [tend].  A handler that went
    through [debounce] hands the invocation to its timer, the other ones
    run their body at once. *)
Fixpoint run_invocations (wait : Z) (p : FormItemWrapperProps) (h : Handler)
    (t : Debounce.timer) (invocations : list (Z * list data)) (tend : Z)
  : M unit :=
  match invocations with
  | [] => fire_due p h tend t;; ret tt
  | (now, args) :: rest =>
      t1 ← fire_due p h now t;
      if h_debounced h
      then run_invocations wait p h (Debounce.call wait now args t1) rest tend
      else (top_level (handler_body p h args);;
            run_invocations wait p h t1 rest tend)
  end.

(** The calls of [publishServiceEvent] that [n] separate runs of the body of
    [h] make, one for each invocation. *)
Definition one_call_each (h : Handler) (invocations : list (Z * list data))
  : list Call :=
  (fun i => CPublishServiceEvent (h_field h) (h_kind h) (h_formData h) (Some i.2))
    <$> invocations.

(** Every invocation after the first arrives no earlier than the one
    before it and before that one's delay has run out. *)
Fixpoint within_window (wait : Z) (prev : Z) (invocations : list (Z * list data))
  : Prop :=
  match invocations with
  | [] => True
  | (now, _) :: rest => prev <= now < prev + wait ∧ within_window wait now rest
  end.

(** *** Loading a configuration *)







(** ** The event bus of the specification *)

Global Instance ServiceTriggerEnum_countable : Countable ServiceTriggerEnum.
Proof.
  refine (inj_countable'
    (fun k => match k with
              | onChange => 0%nat | onMount => 1%nat | onFocus => 2%nat
              | onBlur => 3%nat | onSearch => 4%nat end)
    (fun n => match n with
              | 0%nat => onChange | 1%nat => onMount | 2%nat => onFocus
              | 3%nat => onBlur | _ => onSearch end) _).
  intros []; reflexivity.
Defined.

Module PubSubSpec.

(** Modelled from the spec: the Dependency/Event Bus of section 4.3
    ([PubSubCenter], module [interaction/pubSubCenter], not in the
    sources).  A service binding names the external service and the
    fields to refresh afterwards; every dispatch for a pair
    (field, trigger kind) is stamped with the next sequence number of that
    pair; a response is applied only if its number is the latest issued
    for its pair. *)
Record Descriptor : Type := {
  service : string;
  targets : list string
}.

(** Modelled from the spec: the state of one bus, with the Shared
    Extra-State its merge step writes to. *)
Record Bus : Type := {
  disposed : bool;
  dependents : gmap string (list string);
  bindings : gmap (string * ServiceTriggerEnum) Descriptor;
  latest : gmap (string * ServiceTriggerEnum) nat;
  extraState : store
}.

(** Modelled from the spec: a service call in flight, stamped with its
    sequence number. *)
Record Dispatch : Type := {
  d_field : string;
  d_kind : ServiceTriggerEnum;
  d_seq : nat;
  d_service : string;
  d_targets : list string;
  d_formData : store;
  d_args : option (list data)
}.

(** Modelled from the spec: the reserved [serviceLoading] sub-mapping of
    the extra-state, read as an object. *)
Definition as_object (d : data) : store :=
  match d with DObj o => o | _ => ∅ end.

(** Modelled from the spec: [extraState.serviceLoading[field] = flag]. *)
Definition set_loading (field : string) (flag : bool) (e : store) : store :=
  <["serviceLoading" :=
      DObj (<[field := DBool flag]> (as_object (get_prop e "serviceLoading")))]> e.

(** Modelled from the spec: the loading flags of [fields] are cleared. *)
Definition clear_loading (fields : list string) (e : store) : store :=
  foldr (fun f acc => set_loading f false acc) e fields.

(** Modelled from the spec: [publishDepEvent] returns the fields registered
    as depending on [field], none on a disposed bus. *)
Definition publishDepEvent (b : Bus) (field : string) : list string :=
  if disposed b then [] else default [] (dependents b !! field).

(** Modelled from the spec: [publishServiceEvent]: no binding, no-op;
    otherwise the loading flag of the field is set and the bound service
    is dispatched with the next sequence number of the pair. *)
Definition publishServiceEvent (b : Bus) (field : string)
    (kind : ServiceTriggerEnum) (formData : store) (args : option (list data))
  : Bus * list Dispatch :=
  if disposed b then (b, [])
  else
    match bindings b !! (field, kind) with
    | None => (b, [])
    | Some d =>
        let n := S (default 0%nat (latest b !! (field, kind))) in
        ({| disposed := false;
            dependents := dependents b;
            bindings := bindings b;
            latest := <[(field, kind) := n]> (latest b);
            extraState := set_loading field true (extraState b) |},
         [{| d_field := field; d_kind := kind; d_seq := n;
             d_service := service d; d_targets := targets d;
             d_formData := formData; d_args := args |}])
    end.

(** Modelled from the spec: [batchPublishServiceEvent] calls
    [publishServiceEvent] for each name. *)
Fixpoint batchPublishServiceEvent (b : Bus) (fields : list string)
    (kind : ServiceTriggerEnum) (formData : store) : Bus * list Dispatch :=
  match fields with
  | [] => (b, [])
  | f :: rest =>
      let '(b1, ds1) := publishServiceEvent b f kind formData None in
      let '(b2, ds2) := batchPublishServiceEvent b1 rest kind formData in
      (b2, ds1 ++ ds2)
  end.

(** Modelled from the spec: is this dispatch still the latest one issued
    for its pair, on a bus that is not disposed? *)
Definition is_latest (b : Bus) (d : Dispatch) : bool :=
  negb (disposed b)
  && bool_decide (latest b !! (d_field d, d_kind d) = Some (d_seq d)).

(** Modelled from the spec: the response of a service call arrives.  A
    success merges the reported updates and clears the loading flag of
    the target fields, a failure clears the loading flag without merging,
    and a superseded response is dropped. *)
Definition respond (b : Bus) (d : Dispatch) (result : outcome store) : Bus :=
  if is_latest b d then
    {| disposed := disposed b;
       dependents := dependents b;
       bindings := bindings b;
       latest := latest b;
       extraState :=
         match result with
         | Ok updates =>
             clear_loading (d_targets d) (spread2 (extraState b) updates)
         | Throw _ => set_loading (d_field d) false (extraState b)
         end |}
  else b.

(** Modelled from the spec: [dispose] clears all subscriptions; later
    responses count as superseded. *)
Definition dispose (b : Bus) : Bus :=
  {| disposed := true; dependents := ∅; bindings := ∅; latest := ∅;
     extraState := extraState b |}.

End PubSubSpec.

(** ** Concrete forms *)

Module Examples.

(** A field with the given name, deferred properties and triggers;
    everything else is absent. *)
Definition field_with (widget name : string) (destroy hidden label : jsval)
    (triggers : list ServiceTriggerEnum) : FieldItemMetaType :=
  {| fieldName := name;
     valuePropName := DUndefined;
     initialValue := DUndefined;
     label := label;
     labelAlign := DUndefined;
     widget := widget;
     widgetProps := [("placeholder", JData (DStr "..."))];
     hidden := hidden;
     rules := JData (DArr []);
     tooltip := DUndefined;
     colon := DUndefined;
     extra := DUndefined;
     trigger := DUndefined;
     valueDerived := JData DUndefined;
     servicesTriggers := triggers;
     colProps := Some {[ "span" := DNum 12 ]};
     destroy := destroy;
     required := JData DUndefined;
     noStyle := DUndefined |}.

Definition field := field_with "input".

(** [({formData}) => formData.country === c] *)
Definition country_is (c : string) : jsval :=
  JFun (fun scope =>
          Ok (JData (DBool match formData scope !! "country" with
                           | Some (DStr s) => String.eqb s c
                           | _ => false
                           end))).

(** [() => { throw "boom" }] *)
Definition boom : jsval := JFun (fun _ => Throw (Thrown (DStr "boom"))).

Definition no_effect {A} (a : A) : Eff A := fun w => (Ok a, w).

(** A bus on which [city] and [zip] depend on [country]. *)
Definition bus : PubSubCenter :=
  {| publishDepEvent := fun f =>
       no_effect (if String.eqb f "country" then ["city"; "zip"; "city"] else []);
     publishServiceEvent := fun _ _ _ _ => no_effect tt;
     batchPublishServiceEvent := fun _ _ _ => no_effect tt |}.

Definition country : FieldItemMetaType :=
  field "country" (JData (DBool false)) (JData DUndefined) (JData (DStr "Country")) [].
Definition city : FieldItemMetaType :=
  field "city" (JData DUndefined) (JData DUndefined) (JData (DStr "City"))
        [onMount; onSearch].
(** [zip] is destroyed while the country is DE. *)
Definition zip : FieldItemMetaType :=
  field "zip" (country_is "DE") (JData DUndefined) (JData (DStr "Zip")) [onMount].
(** The label of [note] throws; it is hidden while the country is DE. *)
Definition note : FieldItemMetaType :=
  field "note" (JData (DBool false)) (country_is "DE") boom [].
Definition secret : FieldItemMetaType :=
  field "secret" (JData (DBool false)) (country_is "DE") (JData (DStr "Secret")) [].

(** A field whose widget nobody knows. *)
Definition colour : FieldItemMetaType :=
  field_with "colorPicker" "colour" (JData (DBool false)) (JData DUndefined)
             (JData (DStr "Colour")) [].

Definition renderer : FormRenderer_instance :=
  {| props_onValuesChange := None;
     formItemsMeta := [country; city; zip];
     pubSubCenterRef := Some bus |}.

Definition w0 : World :=
  {| formValues := {[ "country" := DStr "DE" ]};
     extraData := configExtraData (Some {[ "theme" := DStr "dark" ]}) |}.

(** The defaults the caller supplies later. *)
Definition new_defaults : store := {[ "lang" := DStr "en" ]}.

Definition wrapper (m : FieldItemMetaType) (deb : option bool)
  : FormItemWrapperProps :=
  {| formItemMeta := m;
     defaultSpan := DNum 24;
     getWidgets := fun _ => LUndefined;
     calcDerivedValue := fun _ _ => no_effect tt;
     p_publishServiceEvent := fun _ _ _ _ => no_effect tt;
     p_valueGetter := valueGetter;
     debounceSearch := deb |}.



(** A form engine that gives a field registered without a value its
    [initialValue]. *)
Definition fill_initial (item : FormItemElement) (w : World) : World :=
  {| formValues :=
       match formValues w !! fi_name item, fi_initialValue item with
       | Some _, _ => formValues w
       | None, DUndefined => formValues w
       | None, v => <[fi_name item := v]> (formValues w)
       end;
     extraData := extraData w |}.

(** Two searches, one millisecond apart. *)
Definition two_searches : list (Z * list data) :=
  [(0, [DStr "b"]); (1, [DStr "be"])].

(** A registry that knows [input] only. *)
Definition internalWidgets (w : string) : widget_lookup :=
  if String.eqb w "input" then LFound (Component "Input") else LNull.

(** A bus of the specification with a service bound to [city] on mount and
    on search. *)
Definition spec_bus : PubSubSpec.Bus :=
  {| PubSubSpec.disposed := false;
     PubSubSpec.dependents := {[ "country" := ["city"; "zip"] ]};
     PubSubSpec.bindings :=
       {[ ("city", onMount) :=
            {| PubSubSpec.service := "fetchCities"; PubSubSpec.targets := ["city"] |};
          ("city", onSearch) :=
            {| PubSubSpec.service := "searchCities"; PubSubSpec.targets := ["city"] |} ]};
     PubSubSpec.latest := ∅;
     PubSubSpec.extraState := {[ "serviceLoading" := DObj ∅ ]} |}.

End Examples.

(** ** Reading a trace *)

(** The call is one of [publishDepEvent]. *)
Definition is_dep_call (c : Call) : Prop :=
  match c with
  | CPublishDepEvent _ _ => True
  | _ => False
  end.

(** ** More concrete forms *)

Module Cases.

(** The renderer before its configuration effect has run, or after its
    cleanup: [pubSubCenterRef.current] is [null]. *)
Definition detached : FormRenderer_instance :=
  {| props_onValuesChange := Some (fun _ _ _ => Examples.no_effect tt);
     formItemsMeta := [Examples.country; Examples.city; Examples.zip];
     pubSubCenterRef := None |}.

(** A field whose [destroy] expression throws. *)
Definition broken : FieldItemMetaType :=
  Examples.field "broken" Examples.boom (JData DUndefined)
                 (JData (DStr "Broken")) [].

Definition with_broken : FormRenderer_instance :=
  {| props_onValuesChange := Some (fun _ _ _ => Examples.no_effect tt);
     formItemsMeta := [Examples.country; broken; Examples.city];
     pubSubCenterRef := Some Examples.bus |}.

(** A bus whose batch publication marks [city] as loading. *)
Definition loading_bus : PubSubCenter :=
  {| publishDepEvent := publishDepEvent Examples.bus;
     publishServiceEvent := publishServiceEvent Examples.bus;
     batchPublishServiceEvent := fun _ _ _ w =>
       (Ok tt,
        {| formValues := formValues w;
           extraData := <["serviceLoading" := DObj {[ "city" := DBool true ]}]>
                          (extraData w) |}) |}.

Definition notified : FormRenderer_instance :=
  {| props_onValuesChange := Some (fun _ _ _ => Examples.no_effect tt);
     formItemsMeta := [Examples.country; Examples.city; Examples.zip];
     pubSubCenterRef := Some loading_bus |}.

(** A wrapper whose caller brings its own widgets. *)
Definition own_widgets (m : FieldItemMetaType) : FormItemWrapperProps :=
  {| formItemMeta := m;
     defaultSpan := DNum 24;
     getWidgets := fun _ => LFound (Component "MyInput");
     calcDerivedValue := fun _ _ => Examples.no_effect tt;
     p_publishServiceEvent := fun _ _ _ _ => Examples.no_effect tt;
     p_valueGetter := valueGetter;
     debounceSearch := None |}.

(** A searchable field whose widget props bring an [onSearch] of their
    own. *)
Definition searchable : FieldItemMetaType :=
  {| fieldName := "city";
     valuePropName := DUndefined;
     initialValue := DStr "Berlin";
     label := JData (DStr "City");
     labelAlign := DUndefined;
     widget := "select";
     widgetProps := [("onSearch", JData (DStr "mine"));
                     ("placeholder", JData (DStr "..."))];
     hidden := JData DUndefined;
     rules := JData (DArr []);
     tooltip := DUndefined;
     colon := DUndefined;
     extra := DUndefined;
     trigger := DUndefined;
     valueDerived := JData DUndefined;
     servicesTriggers := [onSearch; onChange];
     colProps := Some {[ "span" := DNum 12; "offset" := DNum 2 ]};
     destroy := JData DUndefined;
     required := JData (DBool true);
     noStyle := DUndefined |}.

(** Defaults that set [serviceLoading] to [null], and the world right after
    a configuration was loaded with them. *)
Definition null_loading : store :=
  {[ "serviceLoading" := DNull; "theme" := DStr "dark" ]}.

Definition loaded_null : World :=
  {| formValues := ∅; extraData := configExtraData (Some null_loading) |}.

(** A field with an initial value and a service on mount. *)
Definition capital : FieldItemMetaType :=
  {| fieldName := "city";
     valuePropName := DUndefined;
     initialValue := DStr "Berlin";
     label := JData (DStr "City");
     labelAlign := DUndefined;
     widget := "input";
     widgetProps := [];
     hidden := JData DUndefined;
     rules := JData (DArr []);
     tooltip := DUndefined;
     colon := DUndefined;
     extra := DUndefined;
     trigger := DUndefined;
     valueDerived := JData DUndefined;
     servicesTriggers := [onMount];
     colProps := None;
     destroy := JData DUndefined;
     required := JData DUndefined;
     noStyle := DUndefined |}.

(** Widget props with a literal and an expression. *)
Definition two_props : list (string * jsval) :=
  [("placeholder", JData (DStr "..."));
   ("disabled", Examples.country_is "DE")].

(** A later moment: the country has been changed to FR. *)
Definition later : World :=
  {| formValues := {[ "country" := DStr "FR" ]};
     extraData := extraData Examples.w0 |}.

End Cases.

(** The handler that [getServiceTriggerProps] builds for [kind] in a render
    that saw [formData]; only the search handler can go through
    [debounce]. *)
Definition handler_for (p : FormItemWrapperProps) (formData : store)
    (kind : ServiceTriggerEnum) : Handler :=
  {| h_field := fieldName (formItemMeta p);
     h_kind := kind;
     h_formData := formData;
     h_debounced :=
       match kind, debounceSearch p with
       | onSearch, Some true => true
       | _, _ => false
       end |}.

(** [caller ?? internal] found nothing: the caller's lookup returned
    [undefined] or [null]. *)
Definition caller_misses (p : FormItemWrapperProps) : Prop :=
  getWidgets p (widget (formItemMeta p)) = LUndefined
  ∨ getWidgets p (widget (formItemMeta p)) = LNull.

(** * Properties *)

(** Membership in a list that is written out. *)
Ltac in_list := apply list_elem_of_In; simpl; tauto.

(** ** The monad *)

Lemma bind_ok {A B} (m : M A) (f : A -> M B) (w : World) (a : A) :
  res (m w) = Ok a ->
  bind m f w = {| res := res (f a (world (m w)));
                  world := world (f a (world (m w)));
                  calls := calls (m w) ++ calls (f a (world (m w))) |}.
Proof. intros H. unfold bind. rewrite H. reflexivity. Qed.

Lemma bind_throw {A B} (m : M A) (f : A -> M B) (w : World) (e : error) :
  res (m w) = Throw e ->
  bind m f w = {| res := Throw e; world := world (m w); calls := calls (m w) |}.
Proof. intros H. unfold bind. rewrite H. reflexivity. Qed.

Lemma bind_pure_ok {A B} (m : M A) (f : A -> M B) (w : World) (a : A) :
  m w = {| res := Ok a; world := w; calls := [] |} -> bind m f w = f a w.
Proof. intros H. unfold bind. rewrite H. simpl. destruct (f a w); reflexivity. Qed.

Lemma bind_pure_throw {A B} (m : M A) (f : A -> M B) (w : World) (e : error) :
  m w = {| res := Throw e; world := w; calls := [] |} ->
  bind m f w = {| res := Throw e; world := w; calls := [] |}.
Proof. intros H. unfold bind. rewrite H. reflexivity. Qed.

Lemma valueGetter_world (v : jsval) (w : World) :
  world (valueGetter v w) = w.
Proof. destruct v; reflexivity. Qed.

Lemma valueGetter_calls (v : jsval) (w : World) :
  calls (valueGetter v w) = [].
Proof. destruct v; reflexivity. Qed.

(** C3: [valueGetter] returns a candidate that is not a function unchanged,
    and for a function it returns the result of calling it with the scope
    made of the current form values and the reference to the current
    extra-state; it neither changes the world nor calls anything else. *)
Theorem valueGetter_resolves (value : jsval) (w : World) :
  let scope := {| formData := formValues w;
                  extraDataRef := {| current := extraData w |} |} in
  res (valueGetter value w)
    = match value with
      | JData d => Ok (JData d)
      | JFun f => f scope
      end
  ∧ world (valueGetter value w) = w
  ∧ calls (valueGetter value w) = [].
Proof.
  destruct value; simpl; repeat split; reflexivity.
Qed.


Lemma bind_valueGetter_ok {B} (q : jsval) (f : jsval -> M B) (w : World) (v : jsval) :
  res (valueGetter q w) = Ok v -> bind (valueGetter q) f w = f v w.
Proof.
  intros H. unfold bind. rewrite H, valueGetter_world, valueGetter_calls.
  destruct (f v w); reflexivity.
Qed.

Lemma bind_valueGetter_throw {B} (q : jsval) (f : jsval -> M B) (w : World) (e : error) :
  res (valueGetter q w) = Throw e ->
  bind (valueGetter q) f w = {| res := Throw e; world := w; calls := [] |}.
Proof.
  intros H. unfold bind. rewrite H, valueGetter_world, valueGetter_calls.
  reflexivity.
Qed.

(** ** Deferred properties *)

Lemma all_evaluate_nil w : all_evaluate w [].
Proof. intros q Hq. apply elem_of_nil in Hq. contradiction. Qed.

Lemma all_evaluate_cons w q qs v :
  res (valueGetter q w) = Ok v -> all_evaluate w qs -> all_evaluate w (q :: qs).
Proof.
  intros Hq Hqs q' Hq'. apply elem_of_cons in Hq' as [->|Hq']; eauto.
Qed.

Lemma some_throws_here w q qs e :
  res (valueGetter q w) = Throw e -> some_throws w (q :: qs) e.
Proof. intros H. exists q. split; [apply elem_of_cons; auto|exact H]. Qed.

Lemma some_throws_later w q qs e :
  some_throws w qs e -> some_throws w (q :: qs) e.
Proof. intros (q' & Hq' & H). exists q'. split; [apply elem_of_cons; auto|exact H]. Qed.

Lemma all_evaluate_not_throws w qs e :
  all_evaluate w qs -> some_throws w qs e -> False.
Proof. intros Hall (q & Hq & Ht). destruct (Hall q Hq) as [v Hv]. congruence. Qed.

Lemma some_throws_app_l w qs qs' e :
  some_throws w qs e -> some_throws w (qs ++ qs') e.
Proof. intros (q & Hq & H). exists q. split; [apply elem_of_app; auto|exact H]. Qed.

Lemma some_throws_app_r w qs qs' e :
  some_throws w qs' e -> some_throws w (qs ++ qs') e.
Proof. intros (q & Hq & H). exists q. split; [apply elem_of_app; auto|exact H]. Qed.

Lemma all_evaluate_app w qs qs' :
  all_evaluate w qs -> all_evaluate w qs' -> all_evaluate w (qs ++ qs').
Proof. intros H H' q Hq. apply elem_of_app in Hq as [Hq|Hq]; auto. Qed.

Lemma widgetPropsGetter_from_cases (p : FormItemWrapperProps) (w : World) :
  p_valueGetter p = valueGetter ->
  ∀ entries acc,
    (∃ wps, widgetPropsGetter_from p entries acc w
              = {| res := Ok wps; world := w; calls := [] |}
            ∧ all_evaluate w entries.*2)
    ∨ (∃ e, widgetPropsGetter_from p entries acc w
              = {| res := Throw e; world := w; calls := [] |}
            ∧ some_throws w entries.*2 e).
Proof.
  intros Hvg. induction entries as [|[k q] t IH]; intros acc; simpl.
  - left. eexists. split; [reflexivity|apply all_evaluate_nil].
  - rewrite Hvg.
    destruct (res (valueGetter q w)) as [v|e] eqn:Hq.
    + rewrite (bind_valueGetter_ok _ _ _ _ Hq).
      destruct (IH (<[k:=v]> acc)) as [(wps & Hr & Hall)|(e & Hr & Hthrow)].
      * left. exists wps. split; [exact Hr|]. eapply all_evaluate_cons; eauto.
      * right. exists e. split; [exact Hr|]. apply some_throws_later; auto.
    + rewrite (bind_valueGetter_throw _ _ _ _ Hq).
      right. exists e. split; [reflexivity|]. apply some_throws_here; auto.
Qed.

Lemma render_col_cases (p : FormItemWrapperProps) (Widget : widget_lookup)
    (sp : gmap string WidgetProp) (w : World) :
  p_valueGetter p = valueGetter ->
  let m := formItemMeta p in
  (∃ el h, render_col p Widget sp w = {| res := Ok el; world := w; calls := [] |}
         ∧ all_evaluate w (evaluated_props m)
         ∧ res (valueGetter (hidden_or_default m) w) = Ok h
         ∧ col_props el !! "span" = Some (if truthy h then DNum 0 else col_span p)
         ∧ fi_name (col_child el) = fieldName m
         ∧ fi_hidden (col_child el) = h
         ∧ w_type (fi_child (col_child el)) = Widget)
  ∨ (∃ e, render_col p Widget sp w = {| res := Throw e; world := w; calls := [] |}
          ∧ some_throws w (evaluated_props m) e).
Proof.
  intros Hvg m. unfold render_col, evaluated_props. fold m. rewrite Hvg.
  change [hidden_or_default m; label m; rules m; hidden_or_default m]
    with ([hidden_or_default m; label m; rules m] ++ [hidden_or_default m]).
  destruct (res (valueGetter (hidden_or_default m) w)) as [h|e] eqn:Hh.
  2:{ rewrite (bind_valueGetter_throw _ _ _ _ Hh). right. exists e.
      split; [reflexivity|]. do 2 apply some_throws_app_l. apply some_throws_here; auto. }
  rewrite (bind_valueGetter_ok _ _ _ _ Hh).
  destruct (res (valueGetter (label m) w)) as [lbl|e] eqn:Hl.
  2:{ rewrite (bind_valueGetter_throw _ _ _ _ Hl). right. exists e.
      split; [reflexivity|]. do 2 apply some_throws_app_l.
      apply some_throws_later, some_throws_here; auto. }
  rewrite (bind_valueGetter_ok _ _ _ _ Hl).
  destruct (res (valueGetter (rules m) w)) as [rls|e] eqn:Hr.
  2:{ rewrite (bind_valueGetter_throw _ _ _ _ Hr). right. exists e.
      split; [reflexivity|]. do 2 apply some_throws_app_l.
      apply some_throws_later, some_throws_later, some_throws_here; auto. }
  rewrite (bind_valueGetter_ok _ _ _ _ Hr).
  rewrite (bind_valueGetter_ok _ _ _ _ Hh).
  assert (Hreq :
    (∃ req, (match required m with
             | JData DUndefined => ret None
             | r => (v ← valueGetter r; ret (Some v))
             end) w = {| res := Ok req; world := w; calls := [] |}
            ∧ all_evaluate w (match required m with JData DUndefined => [] | r => [r] end))
    ∨ (∃ e, (match required m with
             | JData DUndefined => ret None
             | r => (v ← valueGetter r; ret (Some v))
             end) w = {| res := Throw e; world := w; calls := [] |}
            ∧ some_throws w (match required m with JData DUndefined => [] | r => [r] end) e)).
  { assert (Hgen : ∀ r,
      (∃ req, (v ← valueGetter r; ret (Some v)) w
                = {| res := Ok req; world := w; calls := [] |} ∧ all_evaluate w [r])
      ∨ (∃ e, (v ← valueGetter r; ret (Some v)) w
                = {| res := Throw e; world := w; calls := [] |} ∧ some_throws w [r] e)).
    { intros r. destruct (res (valueGetter r w)) as [v|e] eqn:Hv.
      - rewrite (bind_valueGetter_ok _ _ _ _ Hv). left. eexists.
        split; [reflexivity|]. eapply all_evaluate_cons; eauto using all_evaluate_nil.
      - rewrite (bind_valueGetter_throw _ _ _ _ Hv). right. eexists.
        split; [reflexivity|]. apply some_throws_here; auto. }
    destruct (required m) as [[]|]; try apply Hgen.
    left. eexists. split; [reflexivity|apply all_evaluate_nil]. }
  set (reqM := match required m with JData DUndefined => ret None | _ => _ end) in *.
  set (reqL := match required m with JData DUndefined => [] | _ => _ end) in *.
  destruct Hreq as [(req & Hreq & Hreqall)|(e & Hreq & Hreqthrow)].
  2:{ right. exists e. split.
      - apply bind_pure_throw, Hreq.
      - apply some_throws_app_r, some_throws_app_l. exact Hreqthrow. }
  rewrite (bind_pure_ok _ _ _ _ Hreq).
  unfold widgetPropsGetter.
  destruct (widgetPropsGetter_from_cases p w Hvg (widgetProps m) ∅)
    as [(wps & Hw & Hwall)|(e & Hw & Hwthrow)].
  2:{ right. exists e. split.
      - apply bind_pure_throw, Hw.
      - do 2 apply some_throws_app_r. exact Hwthrow. }
  rewrite (bind_pure_ok _ _ _ _ Hw).
  left. eexists. exists h. split; [reflexivity|].
  split.
  { repeat apply all_evaluate_app; auto.
    - repeat (eapply all_evaluate_cons; [eassumption|]). apply all_evaluate_nil.
    - eapply all_evaluate_cons; [eassumption|]. apply all_evaluate_nil. }
  simpl. split; [reflexivity|]. split; [apply lookup_insert_eq|]. auto.
Qed.

(** ** [onValuesChange] *)


Lemma not_destroyed_pure item w :
  world (not_destroyed item w) = w ∧ calls (not_destroyed item w) = [].
Proof.
  unfold not_destroyed, bind. destruct (destroy item); simpl; auto.
  destruct (f _); simpl; auto.
Qed.

Lemma not_destroyed_res item w b :
  res (not_destroyed item w) = Ok b ->
  if b then destroy_false w item else destroy_true w item.
Proof.
  unfold not_destroyed, bind, destroy_false, destroy_true.
  destruct (res (valueGetter (destroy item) w)) as [v|e] eqn:Hv; simpl; [|discriminate].
  intros [= <-]. destruct (truthy v) eqn:Ht; simpl; exists v; auto.
Qed.

Lemma filterM_not_destroyed (l : list FieldItemMetaType) (w : World) :
  world (filterM not_destroyed l w) = w ∧ calls (filterM not_destroyed l w) = [] ∧
  ∀ items, res (filterM not_destroyed l w) = Ok items →
    (∀ m, m ∈ items ↔ m ∈ l ∧ destroy_false w m)
    ∧ (∀ m, m ∈ l → destroy_false w m ∨ destroy_true w m).
Proof.
  induction l as [|a t (IHw & IHc & IH)]; simpl.
  - split; [reflexivity|]. split; [reflexivity|].
    intros items [= <-]. split; intros m; rewrite elem_of_nil; tauto.
  - destruct (not_destroyed_pure a w) as [Hw Hc].
    destruct (res (not_destroyed a w)) as [b|e] eqn:Hb.
    2:{ rewrite (bind_throw _ _ _ _ Hb). simpl. rewrite Hw, Hc. repeat split; discriminate. }
    rewrite (bind_ok _ _ _ _ Hb). simpl. rewrite Hw, Hc. simpl.
    destruct (res (filterM not_destroyed t w)) as [items'|e] eqn:Hr.
    2:{ rewrite (bind_throw _ _ _ _ Hr). simpl. rewrite IHw, IHc. repeat split; discriminate. }
    rewrite (bind_ok _ _ _ _ Hr). simpl. rewrite IHw, IHc.
    split; [reflexivity|]. split; [reflexivity|].
    intros items [= <-]. destruct (IH _ eq_refl) as [IH1 IH2].
    apply not_destroyed_res in Hb.
    split; intros m.
    + destruct b.
      * rewrite !elem_of_cons, IH1. split.
        -- intros [->|[? ?]]; auto.
        -- intros [[->|?] ?]; auto.
      * rewrite elem_of_cons, IH1. split.
        -- intros [? ?]; auto.
        -- intros [[->|?] Hf]; auto.
           destruct Hb as (v & Hv & Ht), Hf as (v' & Hv' & Ht').
           congruence.
    + rewrite elem_of_cons. intros [->|Hm]; [|auto].
      destruct b; auto.
Qed.

Lemma Set_add_all_elem (l : list string) : forall seen x,
  x ∈ Set_add_all seen l ↔ x ∈ l ∧ x ∉ seen.
Proof.
  induction l as [|y t IH]; intros seen x; simpl.
  - rewrite elem_of_nil. tauto.
  - case_bool_decide as Hy.
    + rewrite IH, elem_of_cons. split.
      * intros [? ?]; auto.
      * intros [[->|?] ?]; [contradiction|auto].
    + rewrite !elem_of_cons, IH, elem_of_cons. split.
      * intros [->|[? Hn]]; [auto|]. split; [auto|]. intros ?; apply Hn; auto.
      * intros [[->|?] Hn]; [auto|].
        destruct (decide (x = y)) as [->|Hxy]; [auto|].
        right. split; [auto|]. intros [?|?]; auto.
Qed.

Lemma Set_add_all_NoDup (l : list string) : forall seen,
  NoDup (Set_add_all seen l).
Proof.
  induction l as [|y t IH]; intros seen; simpl.
  - constructor.
  - case_bool_decide as Hy; [apply IH|].
    constructor; [|apply IH].
    rewrite Set_add_all_elem, elem_of_cons. intros [_ Hn]. apply Hn; auto.
Qed.

Lemma Array_from_Set_elem (l : list string) (x : string) :
  x ∈ Array_from_Set l ↔ x ∈ l.
Proof.
  unfold Array_from_Set. rewrite Set_add_all_elem, elem_of_nil. tauto.
Qed.

Lemma Array_from_Set_NoDup (l : list string) : NoDup (Array_from_Set l).
Proof. apply Set_add_all_NoDup. Qed.

Lemma allPubServiceFields_elem (changed interact r : list string) (x : string) :
  x ∈ allPubServiceFields changed interact r ↔ (x ∈ changed ∨ x ∈ interact) ∧ x ∈ r.
Proof.
  unfold allPubServiceFields, includes.
  rewrite list_elem_of_In, List.filter_In, <- list_elem_of_In, elem_of_app.
  rewrite bool_decide_eq_true. reflexivity.
Qed.

Lemma collectInteractFields_spec (c : FormRenderer_instance) (b : PubSubCenter)
    (changed : list string) :
  pubSubCenterRef c = Some b ->
  forall acc w interact,
    res (collectInteractFields c changed acc w) = Ok interact ->
    exists deps,
      length deps = length changed
      /\ interact = acc ++ concat deps
      /\ calls (collectInteractFields c changed acc w) = depEvent_calls changed deps.
Proof.
  intros Hb. induction changed as [|f t IH]; intros acc w interact; simpl.
  - intros [= <-]. exists []. rewrite app_nil_r. auto.
  - unfold pubSubCenterRef_current. rewrite Hb.
    rewrite (bind_ok _ _ _ b) by reflexivity. simpl.
    destruct ((publishDepEvent b f w).1) as [d|e] eqn:Hd.
    2:{ rewrite (bind_throw _ _ _ e) by (simpl; exact Hd). simpl. discriminate. }
    rewrite (bind_ok _ _ _ d) by (simpl; exact Hd). simpl.
    intros Hres. destruct (IH _ _ _ Hres) as (deps & Hlen & Hint & Hcalls).
    exists (d :: deps). simpl. rewrite Hlen, Hint, Hcalls, Hd, <- app_assoc.
    auto.
Qed.

Lemma elem_of_concat (ls : list (list string)) (x : string) :
  x ∈ concat ls ↔ ∃ d, d ∈ ls ∧ x ∈ d.
Proof.
  induction ls as [|l t IH]; simpl.
  - rewrite elem_of_nil. split; [tauto|]. intros (d & Hd & _).
    apply elem_of_nil in Hd. exact Hd.
  - rewrite elem_of_app, IH. split.
    + intros [Hx|(d & Hd & Hx)].
      * exists l. split; [apply elem_of_cons; auto|exact Hx].
      * exists d. split; [apply elem_of_cons; auto|exact Hx].
    + intros (d & Hd & Hx). apply elem_of_cons in Hd as [->|Hd]; eauto.
Qed.

Lemma filterM_not_destroyed_ok (l : list FieldItemMetaType) (w : World) :
  (∀ m, m ∈ l → destroy_false w m ∨ destroy_true w m) ->
  ∃ items, res (filterM not_destroyed l w) = Ok items.
Proof.
  induction l as [|a t IH]; intros Hall; simpl.
  - eauto.
  - destruct IH as [items Hitems].
    { intros m Hm. apply Hall. apply elem_of_cons. auto. }
    assert (∃ b, res (not_destroyed a w) = Ok b) as [b Hb].
    { unfold not_destroyed, bind.
      destruct (Hall a) as [(v & Hv & _)|(v & Hv & _)];
        [apply elem_of_cons; auto| |]; rewrite Hv; simpl; eauto. }
    destruct (not_destroyed_pure a w) as [Hw Hc].
    rewrite (bind_ok _ _ _ _ Hb). simpl. rewrite Hw.
    rewrite (bind_ok _ _ _ _ Hitems). simpl. eauto.
Qed.

Lemma shouldRenderFields_spec (c : FormRenderer_instance) (w : World) :
  (∀ m, m ∈ formItemsMeta c → destroy_false w m ∨ destroy_true w m) ->
  ∃ r, shouldRenderFields c w = {| res := Ok r; world := w; calls := [] |}
       ∧ ∀ x, x ∈ r ↔ renderable c w x.
Proof.
  intros Hall. destruct (filterM_not_destroyed_ok _ _ Hall) as [items Hitems].
  destruct (filterM_not_destroyed (formItemsMeta c) w) as (Hw & Hc & Hspec).
  destruct (Hspec _ Hitems) as [Hin _].
  exists (fieldName <$> items). split.
  - unfold shouldRenderFields. rewrite (bind_ok _ _ _ _ Hitems). simpl.
    rewrite Hw, Hc. reflexivity.
  - intros x. rewrite list_elem_of_fmap. unfold renderable. split.
    + intros (m & -> & Hm). apply Hin in Hm as [? ?]. eauto.
    + intros (m & Hm & <- & Hd). exists m. split; [reflexivity|]. apply Hin. auto.
Qed.

(** C1: when the bus is attached, the loop over the changed fields
    completes and no [destroy] expression throws, [onValuesChange] calls
    [batchPublishServiceEvent] exactly once, with the [onChange] kind and a
    duplicate-free list [fired] whose members are exactly the names that are
    a changed field or a dependent returned by one of the [publishDepEvent]
    calls, and that belong to a field whose [destroy] evaluates to a falsy
    value in the world the loop leaves.  When field names are unique, a
    field whose [destroy] evaluates to a truthy value is never in [fired]. *)
Theorem onValuesChange_events_to_fire (c : FormRenderer_instance)
    (b : PubSubCenter) (changedValues : list (string * data)) (w : World)
    (interact : list string) :
  let changed := Object_keys changedValues in
  let loop := collectInteractFields c changed [] w in
  pubSubCenterRef c = Some b ->
  res loop = Ok interact ->
  (∀ m, m ∈ formItemsMeta c → destroy_false (world loop) m ∨ destroy_true (world loop) m) ->
  ∃ fired deps rest,
    calls (onValuesChange c changedValues w)
      = depEvent_calls changed deps
        ++ CBatchPublishServiceEvent fired onChange (formValues (world loop)) :: rest
    ∧ length deps = length changed
    ∧ (rest = [] ∨ ∃ v e, rest = [CPropsOnValuesChange changedValues v e])
    ∧ NoDup fired
    ∧ (∀ x, x ∈ fired ↔
            (x ∈ changed ∨ ∃ d, d ∈ deps ∧ x ∈ d) ∧ renderable c (world loop) x)
    ∧ (NoDup (fieldName <$> formItemsMeta c) ->
       ∀ m, m ∈ formItemsMeta c → destroy_true (world loop) m → fieldName m ∉ fired).
Proof.
  intros changed loop Hb Hloop Hall.
  set (w1 := world loop) in *.
  destruct (collectInteractFields_spec c b changed Hb [] w interact Hloop)
    as (deps & Hlen & Hint & Hcalls).
  destruct (shouldRenderFields_spec c w1 Hall) as (r & Hr & Hrspec).
  simpl in Hint. subst interact.
  set (fired := Array_from_Set (allPubServiceFields changed (concat deps) r)).
  assert (Hfired : ∀ x, x ∈ fired ↔
            (x ∈ changed ∨ ∃ d, d ∈ deps ∧ x ∈ d) ∧ renderable c w1 x).
  { intros x. unfold fired.
    rewrite Array_from_Set_elem, allPubServiceFields_elem, Hrspec.
    rewrite elem_of_concat. reflexivity. }
  assert (Hrun : ∃ rest,
    calls (onValuesChange c changedValues w)
      = depEvent_calls changed deps
        ++ CBatchPublishServiceEvent fired onChange (formValues w1) :: rest
    ∧ (rest = [] ∨ ∃ v e, rest = [CPropsOnValuesChange changedValues v e])).
  { unfold onValuesChange. fold changed.
    rewrite (bind_ok _ _ _ _ Hloop). fold loop. fold w1.
    simpl calls. fold loop in Hcalls. rewrite Hcalls.
    rewrite (bind_ok _ _ _ r) by (rewrite Hr; reflexivity).
    rewrite Hr. simpl.
    unfold pubSubCenterRef_current. rewrite Hb.
    rewrite (bind_ok _ _ _ b) by reflexivity. simpl.
    fold fired.
    match goal with |- context [bind ?m ?f ?w'] => destruct (res (m w')) as [[]|e] eqn:Hbatch end.
    - rewrite (bind_ok _ _ _ _ Hbatch). simpl.
      destruct (props_onValuesChange c) as [cb|]; simpl.
      + eexists. split; [reflexivity|]. right. eauto.
      + eexists. split; [reflexivity|]. left. reflexivity.
    - rewrite (bind_throw _ _ _ _ Hbatch). simpl.
      eexists. split; [reflexivity|]. left. reflexivity. }
  destruct Hrun as (rest & Hrun & Hrest).
  exists fired, deps, rest.
  split; [exact Hrun|]. split; [exact Hlen|]. split; [exact Hrest|].
  split; [apply Array_from_Set_NoDup|]. split; [exact Hfired|].
  intros Hnd m Hm (v & Hv & Ht) Hin.
  apply Hfired in Hin as [_ (m' & Hm' & Hname & v' & Hv' & Ht')].
  assert (m' = m).
  { apply list_elem_of_lookup in Hm as [i Hi], Hm' as [j Hj].
    assert (i = j); [|congruence].
    eapply NoDup_lookup; [exact Hnd| |]; rewrite list_lookup_fmap.
    - rewrite Hi. reflexivity.
    - rewrite Hj. simpl. congruence. }
  subst m'. congruence.
Qed.

Lemma onValuesChange_events_to_fire_witness :
  ∃ fired,
    NoDup fired
    ∧ "country" ∈ fired ∧ "city" ∈ fired ∧ ("zip" ∉ fired)
    ∧ (∃ deps rest,
        calls (onValuesChange Examples.renderer [("country", DStr "DE")] Examples.w0)
        = depEvent_calls ["country"] deps
          ++ CBatchPublishServiceEvent fired onChange (formValues Examples.w0) :: rest).
Proof.
  assert (Hall : ∀ m, m ∈ formItemsMeta Examples.renderer →
                   destroy_false Examples.w0 m ∨ destroy_true Examples.w0 m).
  { intros m Hm. apply list_elem_of_In in Hm. simpl in Hm.
    destruct Hm as [<-|[<-|[<-|[]]]]; [left|left|right];
      eexists; split; reflexivity. }
  destruct (onValuesChange_events_to_fire Examples.renderer Examples.bus
              [("country", DStr "DE")] Examples.w0 ["city"; "zip"; "city"]
              eq_refl eq_refl Hall)
    as (fired & deps & rest & Hcalls & Hlen & Hrest & Hnd & Hfired & Hdestroyed).
  change (world (collectInteractFields Examples.renderer
                   (Object_keys [("country", DStr "DE")]) [] Examples.w0))
    with Examples.w0 in *.
  change (Object_keys [("country", DStr "DE")]) with ["country"] in *.
  exists fired. split; [exact Hnd|].
  split.
  { apply Hfired. split; [left; in_list|].
    exists Examples.country. split; [in_list|].
    split; [reflexivity|]. eexists; split; reflexivity. }
  split.
  { apply Hfired. split.
    - right. exists ["city"; "zip"; "city"]. split; [|in_list].
      destruct deps as [|d [|d' deps]]; simpl in Hlen; try discriminate.
      assert (Hd : calls (onValuesChange Examples.renderer
                            [("country", DStr "DE")] Examples.w0)
                   = [CPublishDepEvent "country" (Ok ["city"; "zip"; "city"]);
                      CBatchPublishServiceEvent ["country"; "city"] onChange
                        (formValues Examples.w0)]) by reflexivity.
      rewrite Hd in Hcalls. simpl in Hcalls. injection Hcalls as <- _.
      in_list.
    - exists Examples.city. split; [in_list|].
      split; [reflexivity|]. eexists; split; reflexivity. }
  split.
  { apply (Hdestroyed ltac:(repeat constructor; intros H; apply list_elem_of_In in H; simpl in H; intuition discriminate) Examples.zip).
    - in_list.
    - eexists; split; reflexivity. }
  exists deps, rest. exact Hcalls.
Defined.

(** ** The render function of a field *)

(** What [render_item] does, case by case, when the wrapper is given the
    renderer's [valueGetter]. *)
Lemma render_item_cases (p : FormItemWrapperProps) (Widget : widget_lookup)
    (w : World) :
  p_valueGetter p = valueGetter ->
  let m := formItemMeta p in
  let derived := calcDerivedValue p (fieldName m) (valueDerived m) w in
  let call := CCalcDerivedValue (fieldName m) (valueDerived m) in
  (∀ e, res (valueGetter (destroy m) w) = Throw e ->
        render_item p Widget w = {| res := Throw e; world := w; calls := [] |})
  ∧ (destroy_true w m ->
        render_item p Widget w = {| res := Ok None; world := w; calls := [] |})
  ∧ (destroy_false w m -> ∀ e, derived.1 = Throw e ->
        render_item p Widget w
        = {| res := Throw e; world := derived.2; calls := [call] |})
  ∧ (destroy_false w m -> derived.1 = Ok tt ->
        ∀ r, render_col p Widget
               (serviceProps_of (getServiceTriggerProps p (formValues derived.2)))
               derived.2
             = {| res := r; world := derived.2; calls := [] |} ->
        render_item p Widget w
        = {| res := match r with Ok el => Ok (Some el) | Throw e => Throw e end;
             world := derived.2; calls := [call] |}).
Proof.
  intros Hvg m derived call. unfold render_item. fold m. rewrite Hvg.
  split; [|split; [|split]].
  - intros e He. apply (bind_valueGetter_throw _ _ _ _ He).
  - intros (v & Hv & Ht). rewrite (bind_valueGetter_ok _ _ _ _ Hv), Ht.
    reflexivity.
  - intros (v & Hv & Ht) e He. rewrite (bind_valueGetter_ok _ _ _ _ Hv), Ht.
    apply bind_throw. exact He.
  - intros (v & Hv & Ht) Hd r Hr. rewrite (bind_valueGetter_ok _ _ _ _ Hv), Ht.
    rewrite (bind_ok _ _ _ tt) by exact Hd.
    simpl. fold derived.
    destruct r as [el|e].
    + rewrite (bind_pure_ok _ _ _ _ Hr). reflexivity.
    + rewrite (bind_pure_throw _ _ _ _ Hr). reflexivity.
Qed.

(** C5: with the renderer's [valueGetter], a field whose [destroy]
    evaluates to a truthy value renders nothing ([null], and nothing is
    called); a field whose [destroy] evaluates to a falsy value and whose
    [hidden] evaluates to a truthy one (the derived-value callback returning
    and the other deferred properties evaluating) is rendered as a form item
    registered under its name, hidden, in a column of span 0. *)
Theorem render_item_destroy_and_hidden (p : FormItemWrapperProps)
    (Widget : widget_lookup) (w : World) :
  p_valueGetter p = valueGetter ->
  let m := formItemMeta p in
  let derived := calcDerivedValue p (fieldName m) (valueDerived m) w in
  (destroy_true w m ->
     render_item p Widget w = {| res := Ok None; world := w; calls := [] |})
  ∧ (destroy_false w m ->
     derived.1 = Ok tt ->
     all_evaluate derived.2 (evaluated_props m) ->
     (∃ h, res (valueGetter (hidden_or_default m) derived.2) = Ok h
           ∧ truthy h = true) ->
     ∃ el, res (render_item p Widget w) = Ok (Some el)
           ∧ col_props el !! "span" = Some (DNum 0)
           ∧ fi_name (col_child el) = fieldName m
           ∧ truthy (fi_hidden (col_child el)) = true
           ∧ w_type (fi_child (col_child el)) = Widget).
Proof.
  intros Hvg m derived.
  destruct (render_item_cases p Widget w Hvg) as (_ & Hdestroyed & _ & Hrendered).
  split; [exact Hdestroyed|].
  intros Hfalse Hderived Hall (h & Hh & Ht).
  fold m derived in Hrendered.
  destruct (render_col_cases p Widget
              (serviceProps_of (getServiceTriggerProps p (formValues derived.2)))
              derived.2 Hvg)
    as [(el & h' & Hcol & _ & Hh' & Hspan & Hname & Hhid & Hty)|(e & _ & Hthrow)].
  - fold m in Hh', Hspan, Hname. rewrite Hh in Hh'. injection Hh' as <-.
    rewrite Ht in Hspan. exists el.
    rewrite (Hrendered Hfalse Hderived _ Hcol). simpl.
    rewrite Hhid. auto.
  - destruct (all_evaluate_not_throws _ _ _ Hall Hthrow).
Qed.

Lemma render_item_destroy_and_hidden_witness :
  render_item (Examples.wrapper Examples.zip None) LUndefined Examples.w0
  = {| res := Ok None; world := Examples.w0; calls := [] |}
  ∧ ∃ el, res (render_item (Examples.wrapper Examples.secret None)
                 (LFound (Component "Input")) Examples.w0) = Ok (Some el)
          ∧ col_props el !! "span" = Some (DNum 0)
          ∧ fi_name (col_child el) = "secret"
          ∧ truthy (fi_hidden (col_child el)) = true
          ∧ w_type (fi_child (col_child el)) = LFound (Component "Input").
Proof.
  split.
  - apply (render_item_destroy_and_hidden
             (Examples.wrapper Examples.zip None) LUndefined Examples.w0 eq_refl).
    eexists; split; reflexivity.
  - apply (render_item_destroy_and_hidden
             (Examples.wrapper Examples.secret None)
             (LFound (Component "Input")) Examples.w0 eq_refl).
    + eexists; split; reflexivity.
    + reflexivity.
    + intros q Hq. apply list_elem_of_In in Hq. simpl in Hq.
      destruct Hq as [<-|[<-|[<-|[<-|[<-|[]]]]]]; eexists; reflexivity.
    + eexists; split; reflexivity.
Defined.

(** C4, as the code has it: an expression that throws is not caught.
    [valueGetter] hands the exception of the function to its caller; with
    the renderer's [valueGetter], the render function of a field throws when
    its [destroy] expression throws, and, for a field that is not destroyed
    and whose derived-value callback returns, it throws the exception of one
    of its deferred properties as soon as one of them throws: no element is
    produced for the field. *)
Theorem render_item_propagates_throw (p : FormItemWrapperProps)
    (Widget : widget_lookup) (w : World) :
  p_valueGetter p = valueGetter ->
  let m := formItemMeta p in
  let derived := calcDerivedValue p (fieldName m) (valueDerived m) w in
  (∀ f e, f {| formData := formValues w;
               extraDataRef := {| current := extraData w |} |} = Throw e ->
          res (valueGetter (JFun f) w) = Throw e)
  ∧ (∀ e, res (valueGetter (destroy m) w) = Throw e ->
          res (render_item p Widget w) = Throw e)
  ∧ (∀ e, destroy_false w m ->
          derived.1 = Ok tt ->
          some_throws derived.2 (evaluated_props m) e ->
          ∃ e', res (render_item p Widget w) = Throw e'
                ∧ some_throws derived.2 (evaluated_props m) e').
Proof.
  intros Hvg m derived.
  destruct (render_item_cases p Widget w Hvg) as (Hdestroy & _ & _ & Hrendered).
  split; [intros f e He; exact He|].
  split; [intros e He; rewrite (Hdestroy e He); reflexivity|].
  intros e Hfalse Hderived Hthrow.
  fold m derived in Hrendered.
  destruct (render_col_cases p Widget
              (serviceProps_of (getServiceTriggerProps p (formValues derived.2)))
              derived.2 Hvg)
    as [(el & h' & _ & Hall & _)|(e' & Hcol & Hthrow')].
  - destruct (all_evaluate_not_throws _ _ _ Hall Hthrow).
  - exists e'. rewrite (Hrendered Hfalse Hderived _ Hcol). auto.
Qed.

Lemma render_item_propagates_throw_witness :
  ∃ e', res (render_item (Examples.wrapper Examples.note None)
               (LFound (Component "Input")) Examples.w0) = Throw e'
        ∧ some_throws Examples.w0 (evaluated_props Examples.note) e'.
Proof.
  destruct (render_item_propagates_throw (Examples.wrapper Examples.note None)
              (LFound (Component "Input")) Examples.w0 eq_refl)
    as (_ & _ & Hthrows).
  apply (Hthrows (Thrown (DStr "boom"))).
  - eexists; split; reflexivity.
  - reflexivity.
  - exists Examples.boom. split; [in_list|reflexivity].
Defined.

(** C4 fails as stated: the label of the field [note] throws, and the
    exception is caught neither by [valueGetter] nor by the render function
    of the field, which produces no element instead of one without the
    label. *)
Lemma throwing_label_is_not_caught :
  res (valueGetter (label Examples.note) Examples.w0) = Throw (Thrown (DStr "boom"))
  ∧ res (render_item (Examples.wrapper Examples.note None)
           (LFound (Component "Input")) Examples.w0)
    = Throw (Thrown (DStr "boom"))
  ∧ ¬ ∃ el, res (render_item (Examples.wrapper Examples.note None)
                   (LFound (Component "Input")) Examples.w0) = Ok el.
Proof.
  split; [reflexivity|]. split; [reflexivity|].
  intros [el Hel]. discriminate Hel.
Qed.

(** ** Widget resolution *)

(** C7: when the caller's lookup returns nothing ([undefined] or [null])
    for the widget identifier and the internal registry returns [null] for
    it, resolving the widget does not throw: it emits one warning whose
    message names the identifier and returns the placeholder
    [NotFoundWidget]. *)
Theorem resolveWidget_not_found (internalWidgets : string -> widget_lookup)
    (p : FormItemWrapperProps) (w : World) :
  let id := widget (formItemMeta p) in
  getWidgets p id = LUndefined ∨ getWidgets p id = LNull ->
  internalWidgets id = LNull ->
  resolveWidget internalWidgets p w
  = {| res := Ok (LFound NotFoundWidget);
       world := w;
       calls := [CWarning ("widget named `" ++ id ++ "` is not found!") "Widget"] |}.
Proof.
  intros id Hcaller Hinternal.
  unfold resolveWidget, resolveWidget_passed. cbv beta iota. fold id.
  destruct Hcaller as [-> | ->]; simpl; rewrite Hinternal; reflexivity.
Qed.

Lemma resolveWidget_not_found_witness :
  resolveWidget Examples.internalWidgets
    (Examples.wrapper Examples.colour None) Examples.w0
  = {| res := Ok (LFound NotFoundWidget);
       world := Examples.w0;
       calls := [CWarning "widget named `colorPicker` is not found!" "Widget"] |}.
Proof.
  apply (resolveWidget_not_found Examples.internalWidgets
           (Examples.wrapper Examples.colour None) Examples.w0).
  - left. reflexivity.
  - reflexivity.
Defined.

Lemma resolveWidget_world (internalWidgets : string -> widget_lookup)
    (p : FormItemWrapperProps) (w : World) :
  world (resolveWidget internalWidgets p w) = w
  ∧ ∃ Widget, res (resolveWidget internalWidgets p w) = Ok Widget.
Proof.
  unfold resolveWidget, resolveWidget_passed. cbv beta iota.
  destruct (coalesce_lookup _ _); simpl; eauto.
Qed.

(** ** The mount effect *)

Lemma mountEffect_calls (p : FormItemWrapperProps) (w : World) :
  let m := formItemMeta p in
  calls (mountEffect p w)
  = if bool_decide (onMount ∈ servicesTriggers m)
    then [CPublishServiceEvent (fieldName m) onMount (formValues w) None]
    else [].
Proof.
  unfold mountEffect, includes. simpl.
  destruct (bool_decide (onMount ∈ servicesTriggers (formItemMeta p)));
    reflexivity.
Qed.







(** C10: with the renderer's [valueGetter], mounting the component of a
    field whose [destroy] evaluates to a truthy value and whose
    [servicesTriggers] includes [onMount] renders nothing and still
    publishes the [onMount] service event, once: apart from what widget
    resolution reports, that call is the only one made.  The same field is
    left out of every list that [onValuesChange] builds from the names that
    are not destroyed, when field names are unique. *)
Theorem destroyed_field_still_mounts
    (register : FormItemElement -> World -> World)
    (internalWidgets : string -> widget_lookup)
    (p : FormItemWrapperProps) (w : World) :
  let m := formItemMeta p in
  p_valueGetter p = valueGetter ->
  destroy_true w m ->
  onMount ∈ servicesTriggers m ->
  (∀ Widget, render_item p Widget w
             = {| res := Ok None; world := w; calls := [] |})
  ∧ calls (FormItemWrapper_mount register internalWidgets p w)
    = calls (resolveWidget internalWidgets p w)
      ++ [CPublishServiceEvent (fieldName m) onMount (formValues w) None]
  ∧ (∀ c changed interact r,
       m ∈ formItemsMeta c ->
       NoDup (fieldName <$> formItemsMeta c) ->
       res (shouldRenderFields c w) = Ok r ->
       fieldName m ∉ Array_from_Set (allPubServiceFields changed interact r)).
Proof.
  intros m Hvg Hdestroy Hmount.
  assert (Hnull : ∀ Widget, render_item p Widget w
                            = {| res := Ok None; world := w; calls := [] |}).
  { intros Widget.
    destruct (render_item_cases p Widget w Hvg) as (_ & Hdestroyed & _).
    exact (Hdestroyed Hdestroy). }
  split; [exact Hnull|]. split.
  - unfold FormItemWrapper_mount.
    destruct (resolveWidget_world internalWidgets p w) as [Hw [Widget HW]].
    rewrite (bind_ok _ _ _ _ HW). simpl. rewrite Hw.
    rewrite (bind_pure_ok _ _ _ _ (Hnull Widget)).
    rewrite (bind_pure_ok (commit_element register None) _ _ tt) by reflexivity.
    unfold bind. rewrite mountEffect_calls. fold m.
    rewrite bool_decide_eq_true_2 by exact Hmount.
    destruct (res (mountEffect p w)); simpl; rewrite ?app_nil_r; reflexivity.
  - intros c changed interact r Hm Hnd Hr Hin.
    apply Array_from_Set_elem, allPubServiceFields_elem in Hin as [_ Hin].
    destruct (filterM_not_destroyed (formItemsMeta c) w) as (_ & _ & Hspec).
    unfold shouldRenderFields in Hr.
    destruct (res (filterM not_destroyed (formItemsMeta c) w)) as [items|e] eqn:Hi.
    2:{ rewrite (bind_throw _ _ _ _ Hi) in Hr. discriminate. }
    rewrite (bind_ok _ _ _ _ Hi) in Hr. simpl in Hr. injection Hr as <-.
    destruct (Hspec _ eq_refl) as [Hitems _].
    apply list_elem_of_fmap in Hin as (m' & Hname & Hm').
    apply Hitems in Hm' as [Hm' (v' & Hv' & Ht')].
    assert (m' = m).
    { apply list_elem_of_lookup in Hm as [i Hi'], Hm' as [j Hj].
      assert (i = j); [|congruence].
      eapply NoDup_lookup; [exact Hnd| |]; rewrite list_lookup_fmap.
      - rewrite Hi'. reflexivity.
      - rewrite Hj. simpl. congruence. }
    subst m'. destruct Hdestroy as (v & Hv & Ht). congruence.
Qed.

Lemma destroyed_field_still_mounts_witness :
  calls (FormItemWrapper_mount Examples.fill_initial Examples.internalWidgets
           (Examples.wrapper Examples.zip None) Examples.w0)
  = [CPublishServiceEvent "zip" onMount (formValues Examples.w0) None].
Proof.
  destruct (destroyed_field_still_mounts Examples.fill_initial
              Examples.internalWidgets
              (Examples.wrapper Examples.zip None) Examples.w0 eq_refl)
    as (_ & Hcalls & _).
  - eexists; split; reflexivity.
  - in_list.
  - exact Hcalls.
Defined.

(** ** New default extra-state *)

(** C9, as the code has it: when the deferred update of the
    [defaultExtraData] effect runs, the new defaults are merged over the
    extra-state of that moment: a key of the new defaults gets its new
    value, and every other key keeps the value it had. *)
Theorem defaultExtraData_merges (defaultExtraData : store) (w : World)
    (k : string) :
  let w' := world (defaultExtraData_timeout defaultExtraData w) in
  extraData w' !! k
  = match defaultExtraData !! k with
    | Some v => Some v
    | None => extraData w !! k
    end
  ∧ formValues w' = formValues w
  ∧ calls (defaultExtraData_timeout defaultExtraData w) = [].
Proof.
  simpl. unfold spread2. rewrite lookup_union.
  destruct (defaultExtraData !! k), (extraData w !! k); auto.
Qed.

(** C9 fails as stated: the configuration was loaded with the defaults
    [{theme: "dark"}]; after the caller supplies the new defaults
    [{lang: "en"}], the key [theme], absent from them, is still there. *)
Lemma previous_extra_state_survives :
  extraData Examples.w0 !! "theme" = Some (DStr "dark")
  ∧ Examples.new_defaults !! "theme" = None
  ∧ extraData (world (defaultExtraData_timeout Examples.new_defaults Examples.w0))
      !! "theme" = Some (DStr "dark")
  ∧ extraData (world (defaultExtraData_timeout Examples.new_defaults Examples.w0))
    ≠ Examples.new_defaults.
Proof.
  split; [reflexivity|]. split; [reflexivity|]. split; [reflexivity|].
  intros H. apply (f_equal (fun e : store => e !! "theme")) in H.
  discriminate H.
Qed.

(** ** Search handlers *)

Lemma serviceTrigger_step_onSearch (p : FormItemWrapperProps) (formData : store)
    (acc : ServiceTriggerProps) (trigger : ServiceTriggerEnum) :
  sp_onSearch (serviceTrigger_step p formData acc trigger)
  = if bool_decide (trigger = onSearch) then Some (search_handler p formData)
    else sp_onSearch acc.
Proof. destruct trigger; reflexivity. Qed.

Lemma getServiceTriggerProps_onSearch (p : FormItemWrapperProps)
    (formData : store) :
  sp_onSearch (getServiceTriggerProps p formData)
  = if bool_decide (onSearch ∈ servicesTriggers (formItemMeta p))
    then Some (search_handler p formData) else None.
Proof.
  unfold getServiceTriggerProps.
  assert (Hgen : ∀ l acc,
    sp_onSearch (fold_left (serviceTrigger_step p formData) l acc)
    = if bool_decide (onSearch ∈ l) then Some (search_handler p formData)
      else sp_onSearch acc).
  { induction l as [|t l IH]; intros acc.
    - case_bool_decide as H; [apply elem_of_nil in H; contradiction|reflexivity].
    - cbn [fold_left]. rewrite IH, serviceTrigger_step_onSearch.
      repeat case_bool_decide; try reflexivity; exfalso.
      + match goal with H : ¬ _ ∈ _ :: _ |- _ => apply H end.
        apply elem_of_cons; auto.
      + match goal with H : ¬ _ ∈ _ :: _ |- _ => apply H end.
        apply elem_of_cons; auto.
      + match goal with H : _ ∈ _ :: _ |- _ => apply elem_of_cons in H as [?|?] end;
          [congruence|contradiction]. }
  rewrite Hgen. reflexivity.
Qed.

(** A handler that did not go through [debounce] publishes once for each
    invocation. *)
Lemma run_invocations_direct (wait : Z) (p : FormItemWrapperProps) (h : Handler)
    (tend : Z) :
  h_debounced h = false ->
  ∀ invocations w,
    calls (run_invocations wait p h Debounce.idle invocations tend w)
    = one_call_each h invocations.
Proof.
  intros Hdirect. induction invocations as [|[now args] rest IH]; intros w.
  - reflexivity.
  - simpl. rewrite Hdirect. unfold bind, top_level. simpl.
    rewrite IH. reflexivity.
Qed.

Lemma last_cons_default {A} (l : list A) : ∀ x d,
  List.last (x :: l) d = List.last l x.
Proof.
  induction l as [|y l IH]; intros x d; [reflexivity|].
  change (List.last (x :: y :: l) d) with (List.last (y :: l) d).
  rewrite (IH y d), (IH y x). reflexivity.
Qed.

(** A debounced handler whose timer is running: invocations that all arrive
    before the delay of the one before has run out leave a single call, made
    with the arguments of the last of them. *)
Lemma run_invocations_debounced (wait : Z) (p : FormItemWrapperProps)
    (h : Handler) (tend : Z) :
  h_debounced h = true ->
  ∀ invocations prev args w,
    within_window wait prev invocations ->
    (List.last invocations (prev, args)).1 + wait <= tend ->
    calls (run_invocations wait p h
             {| Debounce.pending := Some (args, prev + wait) |}
             invocations tend w)
    = [CPublishServiceEvent (h_field h) (h_kind h) (h_formData h)
         (Some (List.last invocations (prev, args)).2)].
Proof.
  intros Hdeb. induction invocations as [|[now args'] rest IH];
    intros prev args w Hwin Hend.
  - simpl in *. unfold fire_due, Debounce.elapse. simpl.
    destruct (prev + wait <=? tend) eqn:Hle; [reflexivity|].
    apply Z.leb_gt in Hle. lia.
  - simpl in Hwin. destruct Hwin as [[Hge Hlt] Hwin].
    cbn [run_invocations]. rewrite Hdeb.
    unfold fire_due, Debounce.elapse.
    cbv beta iota delta [Debounce.pending].
    assert (Hle : (prev + wait <=? now) = false) by (apply Z.leb_gt; lia).
    rewrite Hle.
    rewrite (bind_pure_ok _ _ _ {| Debounce.pending := Some (args, prev + wait) |})
      by reflexivity.
    unfold Debounce.call.
    rewrite last_cons_default in *. apply IH; assumption.
Qed.

(** C8, as the code has it: a field with an [onSearch] trigger gets an
    [onSearch] handler that publishes the [onSearch] service event of the
    field with the form values of the render.  The handler goes through
    [debounce] only when the [debounceSearch] prop is [true]: then the
    invocations of this handler that each arrive before the delay of the
    one before has run out end in exactly one call of [publishServiceEvent],
    made with the arguments of the last invocation once its delay has run
    out.  Otherwise every invocation calls [publishServiceEvent] at once,
    one call for each. *)
Theorem search_debounce_is_gated (wait : Z) (p : FormItemWrapperProps)
    (values : store) (first : Z * list data) (later : list (Z * list data))
    (tend : Z) (w : World) :
  let m := formItemMeta p in
  let h := search_handler p values in
  onSearch ∈ servicesTriggers m ->
  within_window wait first.1 later ->
  (List.last later first).1 + wait <= tend ->
  sp_onSearch (getServiceTriggerProps p values) = Some h
  ∧ (debounceSearch p = Some true ->
     calls (run_invocations wait p h Debounce.idle (first :: later) tend w)
     = [CPublishServiceEvent (fieldName m) onSearch values
          (Some (List.last later first).2)])
  ∧ (debounceSearch p ≠ Some true ->
     calls (run_invocations wait p h Debounce.idle (first :: later) tend w)
     = one_call_each h (first :: later)
     ∧ length (one_call_each h (first :: later)) = S (length later)).
Proof.
  intros m h Hsearch Hwin Hend.
  split; [|split].
  - rewrite getServiceTriggerProps_onSearch.
    rewrite bool_decide_eq_true_2 by exact Hsearch. reflexivity.
  - intros Hdeb.
    assert (Hh : h_debounced h = true) by (unfold h; simpl; rewrite Hdeb; reflexivity).
    destruct first as [t0 a0].
    cbn [run_invocations]. rewrite Hh.
    rewrite (bind_pure_ok (fire_due p h t0 Debounce.idle) _ _ Debounce.idle)
      by reflexivity.
    apply (run_invocations_debounced wait p h tend Hh later t0 a0 w Hwin Hend).
  - intros Hdirect.
    assert (Hh : h_debounced h = false).
    { unfold h. simpl. destruct (debounceSearch p) as [[]|]; congruence. }
    split; [apply run_invocations_direct, Hh|].
    unfold one_call_each. rewrite length_fmap. reflexivity.
Qed.

Lemma search_debounce_is_gated_witness :
  calls (run_invocations 300
           (Examples.wrapper Examples.city (Some true))
           (search_handler (Examples.wrapper Examples.city (Some true))
              (formValues Examples.w0))
           Debounce.idle Examples.two_searches 1000 Examples.w0)
  = [CPublishServiceEvent "city" onSearch (formValues Examples.w0)
       (Some [DStr "be"])].
Proof.
  destruct (search_debounce_is_gated 300
              (Examples.wrapper Examples.city (Some true))
              (formValues Examples.w0) (0, [DStr "b"]) [(1, [DStr "be"])]
              1000 Examples.w0) as (_ & Hdebounced & _).
  - in_list.
  - simpl. lia.
  - simpl. lia.
  - apply Hdebounced. reflexivity.
Defined.

(** C8 fails as stated: without the [debounceSearch] prop, two searches on
    the field [city], one millisecond apart, call [publishServiceEvent]
    twice. *)
Lemma two_searches_publish_twice :
  sp_onSearch (getServiceTriggerProps (Examples.wrapper Examples.city None)
                 (formValues Examples.w0))
  = Some (search_handler (Examples.wrapper Examples.city None)
            (formValues Examples.w0))
  ∧ calls (run_invocations 300
             (Examples.wrapper Examples.city None)
             (search_handler (Examples.wrapper Examples.city None)
                (formValues Examples.w0))
             Debounce.idle Examples.two_searches 1000 Examples.w0)
    = [CPublishServiceEvent "city" onSearch (formValues Examples.w0)
         (Some [DStr "b"]);
       CPublishServiceEvent "city" onSearch (formValues Examples.w0)
         (Some [DStr "be"])].
Proof. split; reflexivity. Qed.

(** ** The event bus of the specification: superseded responses *)

(** C2: on a bus that is not disposed, two dispatches issued in sequence
    for the same bound pair (field, trigger kind) get increasing sequence
    numbers; when the response of the later one arrives first it is
    applied (its updates are merged and the loading flags of the targets
    cleared), and the response of the earlier one, arriving afterwards, is
    dropped without any change.  In general a response whose sequence
    number is not the latest issued for its pair changes nothing. *)
Theorem stale_response_is_discarded (b : PubSubSpec.Bus) (f : string)
    (k : ServiceTriggerEnum) (desc : PubSubSpec.Descriptor)
    (fd1 fd2 : store) (a1 a2 : option (list data))
    (r1 : outcome store) (u2 : store) :
  let first := PubSubSpec.publishServiceEvent b f k fd1 a1 in
  let second := PubSubSpec.publishServiceEvent first.1 f k fd2 a2 in
  PubSubSpec.disposed b = false ->
  PubSubSpec.bindings b !! (f, k) = Some desc ->
  ∃ d1 d2,
    first.2 = [d1] ∧ second.2 = [d2]
    ∧ (PubSubSpec.d_seq d1 < PubSubSpec.d_seq d2)%nat
    ∧ PubSubSpec.extraState (PubSubSpec.respond second.1 d2 (Ok u2))
      = PubSubSpec.clear_loading (PubSubSpec.targets desc)
          (spread2 (PubSubSpec.extraState second.1) u2)
    ∧ PubSubSpec.respond (PubSubSpec.respond second.1 d2 (Ok u2)) d1 r1
      = PubSubSpec.respond second.1 d2 (Ok u2)
    ∧ (∀ b' d r,
         PubSubSpec.latest b' !! (PubSubSpec.d_field d, PubSubSpec.d_kind d)
           ≠ Some (PubSubSpec.d_seq d) ->
         PubSubSpec.respond b' d r = b').
Proof.
  intros first second Hlive Hbound.
  unfold second, first, PubSubSpec.publishServiceEvent.
  rewrite Hlive, Hbound. cbn [fst snd PubSubSpec.disposed PubSubSpec.bindings].
  rewrite Hbound. cbn [fst snd PubSubSpec.latest].
  rewrite lookup_insert_eq. cbn [default].
  eexists. eexists. split; [reflexivity|]. split; [reflexivity|].
  split; [simpl; lia|].
  assert (Hstale : ∀ b' d r,
    PubSubSpec.latest b' !! (PubSubSpec.d_field d, PubSubSpec.d_kind d)
      ≠ Some (PubSubSpec.d_seq d) ->
    PubSubSpec.respond b' d r = b').
  { intros b' d r Hne. unfold PubSubSpec.respond, PubSubSpec.is_latest.
    rewrite (bool_decide_eq_false_2 _ Hne), andb_false_r. reflexivity. }
  split; [|split; [|exact Hstale]].
  - unfold PubSubSpec.respond, PubSubSpec.is_latest. simpl.
    rewrite lookup_insert_eq.
    rewrite bool_decide_eq_true_2 by reflexivity. reflexivity.
  - apply Hstale.
    unfold PubSubSpec.respond at 1, PubSubSpec.is_latest. simpl.
    rewrite lookup_insert_eq.
    rewrite bool_decide_eq_true_2 by reflexivity. simpl.
    rewrite lookup_insert_eq. intros [= Heq]. lia.
Qed.

Lemma stale_response_is_discarded_witness :
  ∃ d1 d2,
    (PubSubSpec.publishServiceEvent Examples.spec_bus "city" onSearch
       (formValues Examples.w0) (Some [DStr "b"])).2 = [d1]
    ∧ PubSubSpec.respond
        (PubSubSpec.respond
           (PubSubSpec.publishServiceEvent
              (PubSubSpec.publishServiceEvent Examples.spec_bus "city" onSearch
                 (formValues Examples.w0) (Some [DStr "b"])).1
              "city" onSearch (formValues Examples.w0) (Some [DStr "be"])).1
           d2 (Ok {[ "cities" := DArr [DStr "Berlin"] ]}))
        d1 (Ok {[ "cities" := DArr [DStr "Bonn"; DStr "Bremen"] ]})
      = PubSubSpec.respond
          (PubSubSpec.publishServiceEvent
             (PubSubSpec.publishServiceEvent Examples.spec_bus "city" onSearch
                (formValues Examples.w0) (Some [DStr "b"])).1
             "city" onSearch (formValues Examples.w0) (Some [DStr "be"])).1
          d2 (Ok {[ "cities" := DArr [DStr "Berlin"] ]}).
Proof.
  destruct (stale_response_is_discarded Examples.spec_bus "city" onSearch
              {| PubSubSpec.service := "searchCities";
                 PubSubSpec.targets := ["city"] |}
              (formValues Examples.w0) (formValues Examples.w0)
              (Some [DStr "b"]) (Some [DStr "be"])
              (Ok {[ "cities" := DArr [DStr "Bonn"; DStr "Bremen"] ]})
              {[ "cities" := DArr [DStr "Berlin"] ]} eq_refl eq_refl)
    as (d1 & d2 & H1 & _ & _ & _ & Hdrop & _).
  exists d1, d2. split; [exact H1|exact Hdrop].
Defined.

(** * Further properties *)

(** ** [onValuesChange]: how a run can end *)

Lemma shouldRenderFields_pure (c : FormRenderer_instance) (w : World) :
  world (shouldRenderFields c w) = w ∧ calls (shouldRenderFields c w) = [].
Proof.
  destruct (filterM_not_destroyed (formItemsMeta c) w) as (Hw & Hc & _).
  unfold shouldRenderFields.
  destruct (res (filterM not_destroyed (formItemsMeta c) w)) as [items|e] eqn:Hr.
  - rewrite (bind_ok _ _ _ _ Hr). simpl. rewrite Hw, Hc. auto.
  - rewrite (bind_throw _ _ _ _ Hr). simpl. auto.
Qed.

Lemma shouldRenderFields_eta (c : FormRenderer_instance) (w : World) :
  shouldRenderFields c w
  = {| res := res (shouldRenderFields c w); world := w; calls := [] |}.
Proof.
  destruct (shouldRenderFields_pure c w) as [Hw Hc].
  destruct (shouldRenderFields c w); simpl in *; subst; reflexivity.
Qed.

Lemma collectInteractFields_dep_calls (c : FormRenderer_instance)
    (changed : list string) :
  ∀ acc w, Forall is_dep_call (calls (collectInteractFields c changed acc w)).
Proof.
  induction changed as [|f t IH]; intros acc w; simpl.
  - constructor.
  - unfold pubSubCenterRef_current.
    destruct (pubSubCenterRef c) as [b|].
    + rewrite (bind_ok _ _ _ b) by reflexivity. simpl.
      destruct ((publishDepEvent b f w).1) as [d|e] eqn:Hd.
      * rewrite (bind_ok _ _ _ d) by (simpl; exact Hd). simpl.
        constructor; [exact I|apply IH].
      * rewrite (bind_throw _ _ _ e) by (simpl; exact Hd). simpl.
        constructor; [exact I|constructor].
    + rewrite (bind_throw _ _ _ (TypeError "Cannot read properties of null"))
        by reflexivity.
      simpl. constructor.
Qed.

(** The rest of a run of [onValuesChange] once the loop over the changed
    fields and the filter on [destroy] have returned. *)
Lemma onValuesChange_after_filter (c : FormRenderer_instance) (b : PubSubCenter)
    (changedValues : list (string * data)) (w w1 : World)
    (interact r : list string) (t1 : list Call) :
  pubSubCenterRef c = Some b ->
  collectInteractFields c (Object_keys changedValues) [] w
    = {| res := Ok interact; world := w1; calls := t1 |} ->
  res (shouldRenderFields c w1) = Ok r ->
  let fired := Array_from_Set
                 (allPubServiceFields (Object_keys changedValues) interact r) in
  let batch := batchPublishServiceEvent b fired onChange (formValues w1) w1 in
  let w2 := batch.2 in
  onValuesChange c changedValues w
  = match batch.1, props_onValuesChange c with
    | Throw e, _ =>
        {| res := Throw e; world := w2;
           calls := t1 ++ [CBatchPublishServiceEvent fired onChange (formValues w1)] |}
    | Ok _, None =>
        {| res := Ok tt; world := w2;
           calls := t1 ++ [CBatchPublishServiceEvent fired onChange (formValues w1)] |}
    | Ok _, Some callback =>
        {| res := (callback changedValues (formValues w2) (extraData w2) w2).1;
           world := (callback changedValues (formValues w2) (extraData w2) w2).2;
           calls := t1 ++ [CBatchPublishServiceEvent fired onChange (formValues w1);
                           CPropsOnValuesChange changedValues (formValues w2)
                             (extraData w2)] |}
    end.
Proof.
  intros Hb Hloop Hr fired batch w2.
  unfold onValuesChange.
  rewrite (bind_ok _ _ _ interact) by (rewrite Hloop; reflexivity).
  rewrite Hloop. cbn [res world calls].
  rewrite (bind_ok _ _ _ r) by exact Hr.
  destruct (shouldRenderFields_pure c w1) as [-> ->]. cbn [app].
  unfold pubSubCenterRef_current. rewrite Hb.
  rewrite (bind_ok _ _ _ b) by reflexivity. cbn [res world calls ret app].
  rewrite (bind_ok _ _ _ (formValues w1)) by reflexivity.
  cbn [res world calls getFieldsValue app].
  fold fired.
  destruct (batch.1) as [[]|e] eqn:Hbatch.
  - rewrite (bind_ok _ _ _ tt) by exact Hbatch.
    destruct (props_onValuesChange c) as [cb|]; simpl; rewrite ?app_nil_r;
      reflexivity.
  - rewrite (bind_throw _ _ _ e) by exact Hbatch. reflexivity.
Qed.

Lemma filterM_not_destroyed_throws (l : list FieldItemMetaType) (w : World) :
  (∃ m e, m ∈ l ∧ res (valueGetter (destroy m) w) = Throw e) ->
  ∃ m e, m ∈ l ∧ res (valueGetter (destroy m) w) = Throw e
         ∧ res (filterM not_destroyed l w) = Throw e.
Proof.
  induction l as [|a t IH]; intros (m & e & Hm & He).
  - apply elem_of_nil in Hm. contradiction.
  - simpl. destruct (not_destroyed_pure a w) as [Hw Hc].
    destruct (res (valueGetter (destroy a) w)) as [v|ea] eqn:Ha.
    + assert (Hb : res (not_destroyed a w) = Ok (negb (truthy v))).
      { unfold not_destroyed. rewrite (bind_valueGetter_ok _ _ _ _ Ha).
        reflexivity. }
      rewrite (bind_ok _ _ _ _ Hb). cbn [res]. rewrite Hw.
      apply elem_of_cons in Hm as [->|Hm]; [congruence|].
      destruct IH as (m' & e' & Hm' & He' & Hres); [eauto|].
      exists m', e'. split; [apply elem_of_cons; auto|]. split; [exact He'|].
      rewrite (bind_throw _ _ _ _ Hres). reflexivity.
    + assert (Hb : res (not_destroyed a w) = Throw ea).
      { unfold not_destroyed. rewrite (bind_valueGetter_throw _ _ _ _ Ha).
        reflexivity. }
      exists a, ea. split; [apply elem_of_cons; auto|]. split; [exact Ha|].
      rewrite (bind_throw _ _ _ _ Hb). reflexivity.
Qed.

(** X1: while [pubSubCenterRef.current] is [null], [onValuesChange] throws
    and calls nothing: neither the bus nor the caller's [onValuesChange]
    callback, whatever the changed values are. *)
Theorem onValuesChange_detached (c : FormRenderer_instance)
    (changedValues : list (string * data)) (w : World) :
  pubSubCenterRef c = None ->
  calls (onValuesChange c changedValues w) = []
  ∧ world (onValuesChange c changedValues w) = w
  ∧ ∃ e, res (onValuesChange c changedValues w) = Throw e.
Proof.
  intros Hnull. unfold onValuesChange.
  destruct (Object_keys changedValues) as [|f t].
  - rewrite (bind_pure_ok _ _ _ []) by reflexivity. cbv beta.
    destruct (res (shouldRenderFields c w)) as [r|e] eqn:Hr.
    + rewrite (bind_pure_ok (shouldRenderFields c) _ _ r)
        by (rewrite (shouldRenderFields_eta c w), Hr; reflexivity).
      cbv beta. unfold pubSubCenterRef_current. rewrite Hnull.
      rewrite (bind_pure_throw _ _ _ (TypeError "Cannot read properties of null"))
        by reflexivity.
      simpl. eauto.
    + rewrite (bind_pure_throw (shouldRenderFields c) _ _ e)
        by (rewrite (shouldRenderFields_eta c w), Hr; reflexivity).
      simpl. eauto.
  - assert (Hloop : collectInteractFields c (f :: t) [] w
                    = {| res := Throw (TypeError "Cannot read properties of null");
                         world := w; calls := [] |}).
    { simpl. unfold pubSubCenterRef_current. rewrite Hnull.
      apply bind_pure_throw. reflexivity. }
    rewrite (bind_pure_throw _ _ _ _ Hloop). simpl. eauto.
Qed.

Lemma onValuesChange_detached_witness :
  calls (onValuesChange Cases.detached [("country", DStr "DE")] Examples.w0) = []
  ∧ world (onValuesChange Cases.detached [("country", DStr "DE")] Examples.w0)
    = Examples.w0
  ∧ ∃ e, res (onValuesChange Cases.detached [("country", DStr "DE")] Examples.w0)
         = Throw e.
Proof.
  apply (onValuesChange_detached Cases.detached [("country", DStr "DE")]
           Examples.w0 eq_refl).
Defined.

(** X2: when the loop over the changed fields has returned and the
    [destroy] expression of some field throws, [onValuesChange] throws the
    exception of a [destroy] expression and stops there: the only calls made
    are those of the loop, so [batchPublishServiceEvent] is not called for
    any field and the caller's callback is not notified. *)
Theorem onValuesChange_destroy_throws (c : FormRenderer_instance)
    (changedValues : list (string * data)) (w : World)
    (interact : list string) (m : FieldItemMetaType) (e : error) :
  let loop := collectInteractFields c (Object_keys changedValues) [] w in
  res loop = Ok interact ->
  m ∈ formItemsMeta c ->
  res (valueGetter (destroy m) (world loop)) = Throw e ->
  calls (onValuesChange c changedValues w) = calls loop
  ∧ Forall is_dep_call (calls (onValuesChange c changedValues w))
  ∧ ∃ m' e', m' ∈ formItemsMeta c
             ∧ res (valueGetter (destroy m') (world loop)) = Throw e'
             ∧ res (onValuesChange c changedValues w) = Throw e'.
Proof.
  intros loop Hloop Hm He.
  destruct (filterM_not_destroyed_throws (formItemsMeta c) (world loop))
    as (m' & e' & Hm' & He' & Hfilter); [eauto|].
  assert (Hshould : shouldRenderFields c (world loop)
                    = {| res := Throw e'; world := world loop; calls := [] |}).
  { rewrite (shouldRenderFields_eta c (world loop)). f_equal.
    unfold shouldRenderFields. rewrite (bind_throw _ _ _ _ Hfilter).
    reflexivity. }
  assert (Hrun : onValuesChange c changedValues w
                 = {| res := Throw e'; world := world loop; calls := calls loop |}).
  { unfold onValuesChange. rewrite (bind_ok _ _ _ _ Hloop). fold loop.
    rewrite (bind_pure_throw _ _ _ _ Hshould). cbn [res world calls].
    rewrite app_nil_r. reflexivity. }
  rewrite Hrun. cbn [res world calls].
  split; [reflexivity|]. split; [apply collectInteractFields_dep_calls|].
  exists m', e'. auto.
Qed.

Lemma onValuesChange_destroy_throws_witness :
  calls (onValuesChange Cases.with_broken [("country", DStr "DE")] Examples.w0)
  = [CPublishDepEvent "country" (Ok ["city"; "zip"; "city"])]
  ∧ ∃ e', res (onValuesChange Cases.with_broken [("country", DStr "DE")]
                 Examples.w0) = Throw e'.
Proof.
  destruct (onValuesChange_destroy_throws Cases.with_broken
              [("country", DStr "DE")] Examples.w0 ["city"; "zip"; "city"]
              Cases.broken (Thrown (DStr "boom")) eq_refl)
    as (Hcalls & _ & m' & e' & _ & _ & Hres).
  - in_list.
  - reflexivity.
  - split; [exact Hcalls|]. exists e'. exact Hres.
Defined.

(** X3: on a run in which the loop and the [destroy] filter have returned,
    the caller's [onValuesChange] callback is called after
    [batchPublishServiceEvent] has returned, with the changed values and
    with the form values and the extra-state as the bus left them; when
    [batchPublishServiceEvent] throws, the exception propagates and the
    callback is not called. *)
Theorem onValuesChange_notifies_after_batch (c : FormRenderer_instance)
    (b : PubSubCenter) (changedValues : list (string * data)) (w w1 : World)
    (interact r : list string) (t1 : list Call)
    (callback : list (string * data) -> store -> store -> Eff unit) :
  let fired := Array_from_Set
                 (allPubServiceFields (Object_keys changedValues) interact r) in
  let batch := batchPublishServiceEvent b fired onChange (formValues w1) w1 in
  let w2 := batch.2 in
  pubSubCenterRef c = Some b ->
  props_onValuesChange c = Some callback ->
  collectInteractFields c (Object_keys changedValues) [] w
    = {| res := Ok interact; world := w1; calls := t1 |} ->
  res (shouldRenderFields c w1) = Ok r ->
  (batch.1 = Ok tt ->
     calls (onValuesChange c changedValues w)
     = t1 ++ [CBatchPublishServiceEvent fired onChange (formValues w1);
              CPropsOnValuesChange changedValues (formValues w2) (extraData w2)]
     ∧ res (onValuesChange c changedValues w)
       = (callback changedValues (formValues w2) (extraData w2) w2).1)
  ∧ (∀ e, batch.1 = Throw e ->
     calls (onValuesChange c changedValues w)
     = t1 ++ [CBatchPublishServiceEvent fired onChange (formValues w1)]
     ∧ res (onValuesChange c changedValues w) = Throw e).
Proof.
  intros fired batch w2 Hb Hcb Hloop Hr.
  rewrite (onValuesChange_after_filter c b changedValues w w1 interact r t1
             Hb Hloop Hr).
  fold fired. fold batch. fold w2. rewrite Hcb.
  split.
  - intros Hok. rewrite Hok. auto.
  - intros e He. rewrite He. auto.
Qed.

Lemma onValuesChange_notifies_after_batch_witness :
  calls (onValuesChange Cases.notified [("country", DStr "DE")] Examples.w0)
  = [CPublishDepEvent "country" (Ok ["city"; "zip"; "city"]);
     CBatchPublishServiceEvent ["country"; "city"] onChange
       (formValues Examples.w0);
     CPropsOnValuesChange [("country", DStr "DE")] (formValues Examples.w0)
       (<["serviceLoading" := DObj {[ "city" := DBool true ]}]>
          (extraData Examples.w0))].
Proof.
  destruct (onValuesChange_notifies_after_batch Cases.notified Cases.loading_bus
              [("country", DStr "DE")] Examples.w0 Examples.w0
              ["city"; "zip"; "city"] ["country"; "city"]
              [CPublishDepEvent "country" (Ok ["city"; "zip"; "city"])]
              (fun _ _ _ => Examples.no_effect tt)
              eq_refl eq_refl eq_refl eq_refl) as [Hok _].
  destruct (Hok eq_refl) as [Hcalls _]. exact Hcalls.
Defined.

(** X4: a value-change event with no changed key (and an attached bus, no
    [destroy] expression throwing) asks the bus for no dependents and still
    calls [batchPublishServiceEvent] once, with the empty list of fields. *)
Theorem onValuesChange_nothing_changed (c : FormRenderer_instance)
    (b : PubSubCenter) (w : World) :
  pubSubCenterRef c = Some b ->
  (∀ m, m ∈ formItemsMeta c → destroy_false w m ∨ destroy_true w m) ->
  ∃ rest,
    calls (onValuesChange c [] w)
    = CBatchPublishServiceEvent [] onChange (formValues w) :: rest
    ∧ (rest = [] ∨ ∃ v x, rest = [CPropsOnValuesChange [] v x]).
Proof.
  intros Hb Hall.
  destruct (shouldRenderFields_spec c w Hall) as (r & Hr & _).
  assert (Hres : res (shouldRenderFields c w) = Ok r) by (rewrite Hr; reflexivity).
  rewrite (onValuesChange_after_filter c b [] w w [] r [] Hb eq_refl Hres).
  change (Array_from_Set (allPubServiceFields (Object_keys []) [] r))
    with (@nil string).
  destruct ((batchPublishServiceEvent b [] onChange (formValues w) w).1)
    as [[]|e]; [destruct (props_onValuesChange c) as [cb|]|];
    cbn [calls app]; eexists; split; try reflexivity; eauto.
Qed.

Lemma onValuesChange_nothing_changed_witness :
  ∃ rest,
    calls (onValuesChange Examples.renderer [] Examples.w0)
    = CBatchPublishServiceEvent [] onChange (formValues Examples.w0) :: rest
    ∧ (rest = [] ∨ ∃ v x, rest = [CPropsOnValuesChange [] v x]).
Proof.
  apply (onValuesChange_nothing_changed Examples.renderer Examples.bus
           Examples.w0 eq_refl).
  intros m Hm. apply list_elem_of_In in Hm. simpl in Hm.
  destruct Hm as [<-|[<-|[<-|[]]]]; [left|left|right];
    eexists; split; reflexivity.
Defined.

(** X5: whatever the input, the calls of a run of [onValuesChange] are
    calls of [publishDepEvent] followed by at most one call of
    [batchPublishServiceEvent] (with the [onChange] kind) and then at most
    one call of the caller's callback.  A run that makes no call of
    [batchPublishServiceEvent] throws, and the callback is called only
    after [batchPublishServiceEvent], as the last call. *)
Theorem onValuesChange_trace_shape (c : FormRenderer_instance)
    (changedValues : list (string * data)) (w : World) :
  ∃ t1 tail,
    calls (onValuesChange c changedValues w) = t1 ++ tail
    ∧ Forall is_dep_call t1
    ∧ ((tail = [] ∧ ∃ e, res (onValuesChange c changedValues w) = Throw e)
       ∨ (∃ fired v, tail = [CBatchPublishServiceEvent fired onChange v]
            ∧ ((∃ e, res (onValuesChange c changedValues w) = Throw e)
               ∨ props_onValuesChange c = None))
       ∨ (∃ fired v v' x,
            tail = [CBatchPublishServiceEvent fired onChange v;
                    CPropsOnValuesChange changedValues v' x]
            ∧ props_onValuesChange c ≠ None)).
Proof.
  set (loop := collectInteractFields c (Object_keys changedValues) [] w).
  assert (Hdeps : Forall is_dep_call (calls loop))
    by apply collectInteractFields_dep_calls.
  destruct (res loop) as [interact|e] eqn:Hloop.
  2:{ exists (calls loop), []. rewrite app_nil_r.
      unfold onValuesChange. fold loop. rewrite (bind_throw _ _ _ _ Hloop).
      cbn [res calls]. split; [reflexivity|]. split; [exact Hdeps|]. left. eauto. }
  destruct (res (shouldRenderFields c (world loop))) as [r|e] eqn:Hr.
  2:{ exists (calls loop), []. rewrite app_nil_r.
      unfold onValuesChange. fold loop. rewrite (bind_ok _ _ _ _ Hloop).
      cbv beta.
      rewrite (bind_pure_throw (shouldRenderFields c) _ (world loop) e)
        by (rewrite (shouldRenderFields_eta c (world loop)), Hr; reflexivity).
      cbn [res calls]. rewrite app_nil_r.
      split; [reflexivity|]. split; [exact Hdeps|]. left. eauto. }
  destruct (pubSubCenterRef c) as [b|] eqn:Hb.
  2:{ destruct (onValuesChange_detached c changedValues w Hb) as (Hc & _ & He).
      exists [], []. rewrite Hc. split; [reflexivity|]. split; [constructor|].
      left. auto. }
  assert (Heta : loop = {| res := Ok interact; world := world loop;
                           calls := calls loop |}).
  { rewrite <- Hloop. destruct loop; reflexivity. }
  rewrite (onValuesChange_after_filter c b changedValues w (world loop)
             interact r (calls loop) Hb Heta Hr).
  exists (calls loop).
  destruct ((batchPublishServiceEvent b _ onChange _ (world loop)).1) as [[]|e];
    [destruct (props_onValuesChange c) as [cb|] eqn:Hcb|];
    cbn [res calls]; eexists; (split; [reflexivity|]); (split; [exact Hdeps|]).
  - right. right. do 4 eexists. split; [reflexivity|discriminate].
  - right. left. do 2 eexists. split; [reflexivity|]. right. reflexivity.
  - right. left. do 2 eexists. split; [reflexivity|]. left. eauto.
Qed.

(** ** The order of the fields that fire *)

Lemma Set_add_all_app (a : list string) : ∀ seen b,
  ∃ seen', Set_add_all seen (a ++ b) = Set_add_all seen a ++ Set_add_all seen' b
           ∧ ∀ x, x ∈ seen' ↔ x ∈ seen ∨ x ∈ a.
Proof.
  induction a as [|y a IH]; intros seen b; simpl.
  - exists seen. split; [reflexivity|]. intros x. rewrite elem_of_nil. tauto.
  - case_bool_decide as Hy.
    + destruct (IH seen b) as (seen' & Heq & Hin). exists seen'.
      split; [exact Heq|]. intros x. rewrite Hin, elem_of_cons. split.
      * intros [?|?]; auto.
      * intros [?|[->|?]]; auto.
    + destruct (IH (y :: seen) b) as (seen' & Heq & Hin). exists seen'.
      split; [rewrite Heq; reflexivity|].
      intros x. rewrite Hin, !elem_of_cons. tauto.
Qed.

(** X6: in the list handed to [batchPublishServiceEvent], a changed field
    comes before every field that is there only as a dependent. *)
Theorem changed_fields_fire_first (changed interact r : list string)
    (x y : string) :
  let fired := Array_from_Set (allPubServiceFields changed interact r) in
  x ∈ changed -> y ∉ changed -> x ∈ fired -> y ∈ fired ->
  ∃ l1 l2 l3, fired = l1 ++ x :: l2 ++ y :: l3.
Proof.
  intros fired Hx Hy Hxf Hyf.
  assert (Hxr : x ∈ r).
  { apply Array_from_Set_elem, allPubServiceFields_elem in Hxf. tauto. }
  unfold fired, Array_from_Set, allPubServiceFields in *.
  rewrite List.filter_app in *.
  set (A := List.filter (λ fieldName, includes r fieldName) changed) in *.
  set (B := List.filter (λ fieldName, includes r fieldName) interact) in *.
  assert (HA : ∀ z, z ∈ A ↔ z ∈ changed ∧ z ∈ r).
  { intros z. unfold A, includes.
    rewrite list_elem_of_In, List.filter_In, <- list_elem_of_In.
    rewrite bool_decide_eq_true. reflexivity. }
  destruct (Set_add_all_app A [] B) as (seen' & Heq & Hseen).
  rewrite Heq in *.
  assert (Hx1 : x ∈ Set_add_all [] A).
  { apply elem_of_app in Hxf as [Hxf|Hxf]; [exact Hxf|].
    apply Set_add_all_elem in Hxf as [_ Hn]. exfalso. apply Hn.
    apply Hseen. right. apply HA. auto. }
  assert (Hy2 : y ∈ Set_add_all seen' B).
  { apply elem_of_app in Hyf as [Hyf|Hyf]; [|exact Hyf].
    apply Set_add_all_elem in Hyf as [Hyf _]. apply HA in Hyf. tauto. }
  apply list_elem_of_split in Hx1 as (l1 & l2 & ->).
  apply list_elem_of_split in Hy2 as (l2' & l3 & ->).
  exists l1, (l2 ++ l2'), l3. rewrite <- !app_assoc. reflexivity.
Qed.

Lemma changed_fields_fire_first_witness :
  ∃ l1 l2 l3,
    Array_from_Set (allPubServiceFields ["country"] ["city"; "zip"; "city"]
                      ["country"; "city"])
    = l1 ++ "country" :: l2 ++ "city" :: l3.
Proof.
  apply (changed_fields_fire_first ["country"] ["city"; "zip"; "city"]
           ["country"; "city"] "country" "city").
  - in_list.
  - intros H. apply list_elem_of_In in H. simpl in H.
    destruct H as [H|[]]. discriminate H.
  - apply list_elem_of_In. simpl. tauto.
  - apply list_elem_of_In. simpl. tauto.
Defined.

(** ** Widget resolution: every case *)

(** X7: a widget that the caller's lookup finds is used as it is, whatever
    the internal registry holds for the identifier; the registry's widget
    is used when the caller's lookup returns [undefined] or [null].  In
    both cases nothing is reported. *)
Theorem resolveWidget_precedence (internalWidgets : string -> widget_lookup)
    (p : FormItemWrapperProps) (w : World) (c : ComponentType) :
  let id := widget (formItemMeta p) in
  (getWidgets p id = LFound c ->
     resolveWidget internalWidgets p w
     = {| res := Ok (LFound c); world := w; calls := [] |})
  ∧ (caller_misses p -> internalWidgets id = LFound c ->
     resolveWidget internalWidgets p w
     = {| res := Ok (LFound c); world := w; calls := [] |}).
Proof.
  intros id. unfold resolveWidget, resolveWidget_passed, caller_misses.
  cbv beta iota. fold id. split.
  - intros Hfound. rewrite Hfound. reflexivity.
  - intros [Hmiss|Hmiss] Hinternal; rewrite Hmiss; simpl; rewrite Hinternal;
      reflexivity.
Qed.

Lemma resolveWidget_precedence_witness :
  resolveWidget (fun _ => LFound (Component "Fallback"))
    (Cases.own_widgets Examples.city) Examples.w0
  = {| res := Ok (LFound (Component "MyInput")); world := Examples.w0;
       calls := [] |}
  ∧ resolveWidget Examples.internalWidgets
      (Examples.wrapper Examples.city None) Examples.w0
    = {| res := Ok (LFound (Component "Input")); world := Examples.w0;
         calls := [] |}.
Proof.
  split.
  - destruct (resolveWidget_precedence (fun _ => LFound (Component "Fallback"))
                (Cases.own_widgets Examples.city) Examples.w0
                (Component "MyInput")) as [Hcaller _].
    apply Hcaller. reflexivity.
  - destruct (resolveWidget_precedence Examples.internalWidgets
                (Examples.wrapper Examples.city None) Examples.w0
                (Component "Input")) as [_ Hregistry].
    apply Hregistry; [left|]; reflexivity.
Defined.

(** X8: whatever is passed as [getWidgets], resolving the widget throws
    exactly when the prop was not supplied (calling it is a [TypeError]) or
    the caller's lookup itself throws, and then nothing is reported.  It
    never changes form values or extra-state and never yields [null]; it
    reports something, the one warning, exactly when the caller's lookup
    returns nothing and the registry returns [null]; and when the registry
    returns [undefined] instead, the resolved widget is [undefined] and
    nothing is reported. *)
Theorem resolveWidget_passed_outcomes
    (internalWidgets : string -> widget_lookup)
    (getWidgets : option (string -> outcome widget_lookup)) (id : string)
    (w : World) :
  (getWidgets = None ->
     res (resolveWidget_passed internalWidgets getWidgets id w)
     = Throw (TypeError "getWidgets is not a function")
     ∧ calls (resolveWidget_passed internalWidgets getWidgets id w) = [])
  ∧ (∀ lookup e, getWidgets = Some lookup -> lookup id = Throw e ->
       res (resolveWidget_passed internalWidgets getWidgets id w) = Throw e
       ∧ calls (resolveWidget_passed internalWidgets getWidgets id w) = [])
  ∧ ((∃ e, res (resolveWidget_passed internalWidgets getWidgets id w) = Throw e)
     ↔ getWidgets = None
       ∨ ∃ lookup e, getWidgets = Some lookup ∧ lookup id = Throw e)
  ∧ world (resolveWidget_passed internalWidgets getWidgets id w) = w
  ∧ res (resolveWidget_passed internalWidgets getWidgets id w) ≠ Ok LNull
  ∧ (calls (resolveWidget_passed internalWidgets getWidgets id w) ≠ []
     ↔ ∃ l, passed_returns getWidgets id l ∧ lookup_misses l
            ∧ internalWidgets id = LNull)
  ∧ (res (resolveWidget_passed internalWidgets getWidgets id w) = Ok LUndefined
     ↔ ∃ l, passed_returns getWidgets id l ∧ lookup_misses l
            ∧ internalWidgets id = LUndefined)
  ∧ (calls (resolveWidget_passed internalWidgets getWidgets id w) = []
     ∨ calls (resolveWidget_passed internalWidgets getWidgets id w)
       = [CWarning ("widget named `" ++ id ++ "` is not found!") "Widget"]
       ∧ res (resolveWidget_passed internalWidgets getWidgets id w)
         = Ok (LFound NotFoundWidget)).
Proof.
  unfold resolveWidget_passed, passed_returns, lookup_misses.
  destruct getWidgets as [lookup|].
  2:{ simpl. split; [auto|]. split; [discriminate|]. split; [split; eauto|].
      split; [reflexivity|]. split; [discriminate|]. split.
      { split; [intros H; contradiction|].
        intros (l & (g & Hg & _) & _). discriminate. }
      split; [|auto].
      split; [discriminate|]. intros (l & (g & Hg & _) & _). discriminate. }
  destruct (lookup id) as [l|e] eqn:Hl.
  2:{ simpl. split; [discriminate|].
      split; [intros g e' [= <-] He'; rewrite Hl in He'; injection He' as <-; auto|].
      split; [split; [intros _; right; eauto|eauto]|].
      split; [reflexivity|]. split; [discriminate|]. split.
      { split; [intros H; contradiction|].
        intros (l & (g & [= <-] & Hg) & _). congruence. }
      split; [|auto].
      split; [discriminate|]. intros (l & (g & [= <-] & Hg) & _). congruence. }
  split; [discriminate|].
  split; [intros g e [= <-] He; congruence|].
  assert (Hfound : ∀ l', (∃ g, Some lookup = Some g ∧ g id = Ok l') ↔ l' = l).
  { intros l'. split.
    - intros (g & [= <-] & Hg). congruence.
    - intros ->. eauto. }
  destruct l as [| |c]; destruct (internalWidgets id) as [| |c'] eqn:Hi;
    simpl;
    (split; [split; [intros [e He]; discriminate
                    |intros [H|(g & e & [= <-] & He)]; congruence]|]);
    (split; [reflexivity|]);
    (split; [discriminate|]);
    (split; [split; [try (intros H; contradiction);
                     try (intros _; eexists; split;
                          [apply Hfound; reflexivity|]; split; [auto|reflexivity])
                    |intros (l' & Hl' & Hmiss & Hreg); apply Hfound in Hl'; subst l';
                     try discriminate; destruct Hmiss; discriminate]|]);
    (split; [split; [try discriminate;
                     try (intros _; eexists; split;
                          [apply Hfound; reflexivity|]; split; [auto|reflexivity])
                    |intros (l' & Hl' & Hmiss & Hreg); apply Hfound in Hl'; subst l';
                     try discriminate; try reflexivity;
                     destruct Hmiss; discriminate]|]);
    auto.
Qed.

(** ** Service trigger props: every handler *)

Lemma serviceTrigger_step_onBlur (p : FormItemWrapperProps) (formData : store)
    (acc : ServiceTriggerProps) (trigger : ServiceTriggerEnum) :
  sp_onBlur (serviceTrigger_step p formData acc trigger)
  = if bool_decide (trigger = onBlur) then Some (handler_for p formData onBlur)
    else sp_onBlur acc.
Proof. destruct trigger; reflexivity. Qed.

Lemma serviceTrigger_step_onFocus (p : FormItemWrapperProps) (formData : store)
    (acc : ServiceTriggerProps) (trigger : ServiceTriggerEnum) :
  sp_onFocus (serviceTrigger_step p formData acc trigger)
  = if bool_decide (trigger = onFocus) then Some (handler_for p formData onFocus)
    else sp_onFocus acc.
Proof. destruct trigger; reflexivity. Qed.

Lemma serviceTrigger_step_search (p : FormItemWrapperProps) (formData : store)
    (acc : ServiceTriggerProps) (trigger : ServiceTriggerEnum) :
  sp_onSearch (serviceTrigger_step p formData acc trigger)
  = if bool_decide (trigger = onSearch) then Some (handler_for p formData onSearch)
    else sp_onSearch acc.
Proof. destruct trigger; reflexivity. Qed.

(** A prop that each round sets for one trigger kind and otherwise keeps is,
    after all rounds, set exactly when that kind is among the triggers. *)
Lemma serviceTrigger_fold (p : FormItemWrapperProps) (formData : store)
    (proj : ServiceTriggerProps -> option Handler) (kind : ServiceTriggerEnum)
    (h : Handler) :
  (∀ acc trigger,
     proj (serviceTrigger_step p formData acc trigger)
     = if bool_decide (trigger = kind) then Some h else proj acc) ->
  ∀ triggers acc,
    proj (fold_left (serviceTrigger_step p formData) triggers acc)
    = if bool_decide (kind ∈ triggers) then Some h else proj acc.
Proof.
  intros Hstep. induction triggers as [|t l IH]; intros acc.
  - case_bool_decide as H; [apply elem_of_nil in H; contradiction|reflexivity].
  - cbn [fold_left]. rewrite IH, Hstep.
    repeat case_bool_decide; try reflexivity; exfalso.
    + match goal with H : ¬ _ ∈ _ :: _ |- _ => apply H end.
      apply elem_of_cons; auto.
    + match goal with H : ¬ _ ∈ _ :: _ |- _ => apply H end.
      apply elem_of_cons; auto.
    + match goal with H : _ ∈ _ :: _ |- _ => apply elem_of_cons in H as [?|?] end;
        [congruence|contradiction].
Qed.

Lemma getServiceTriggerProps_fields (p : FormItemWrapperProps)
    (formData : store) :
  getServiceTriggerProps p formData
  = {| sp_onBlur := if bool_decide (onBlur ∈ servicesTriggers (formItemMeta p))
                    then Some (handler_for p formData onBlur) else None;
       sp_onFocus := if bool_decide (onFocus ∈ servicesTriggers (formItemMeta p))
                     then Some (handler_for p formData onFocus) else None;
       sp_onSearch := if bool_decide (onSearch ∈ servicesTriggers (formItemMeta p))
                      then Some (handler_for p formData onSearch) else None |}.
Proof.
  assert (Heta : ∀ s, s = {| sp_onBlur := sp_onBlur s; sp_onFocus := sp_onFocus s;
                             sp_onSearch := sp_onSearch s |})
    by (intros []; reflexivity).
  rewrite (Heta (getServiceTriggerProps p formData)).
  unfold getServiceTriggerProps.
  rewrite (serviceTrigger_fold p formData sp_onBlur onBlur _
             (serviceTrigger_step_onBlur p formData)).
  rewrite (serviceTrigger_fold p formData sp_onFocus onFocus _
             (serviceTrigger_step_onFocus p formData)).
  rewrite (serviceTrigger_fold p formData sp_onSearch onSearch _
             (serviceTrigger_step_search p formData)).
  reflexivity.
Qed.

Lemma serviceProps_of_lookup (sp : ServiceTriggerProps) :
  serviceProps_of sp !! "onBlur" = PHandler <$> sp_onBlur sp
  ∧ serviceProps_of sp !! "onFocus" = PHandler <$> sp_onFocus sp
  ∧ serviceProps_of sp !! "onSearch" = PHandler <$> sp_onSearch sp
  ∧ ∀ k, k ≠ "onBlur" -> k ≠ "onFocus" -> k ≠ "onSearch" ->
         serviceProps_of sp !! k = None.
Proof.
  unfold serviceProps_of.
  destruct sp as [[hb|] [hf|] [hs|]]; cbn [sp_onBlur sp_onFocus sp_onSearch];
    (split; [|split; [|split]]);
    try (intros k Hb Hf Hs);
    repeat first [ rewrite lookup_insert_eq
                 | rewrite lookup_insert_ne by (first [discriminate | congruence])
                 | rewrite lookup_empty ];
    reflexivity.
Qed.

(** X9: [getServiceTriggerProps] gives a handler for blur, focus and search
    exactly when that kind is among [servicesTriggers], in whatever order
    and however often it is listed; the [onChange] and [onMount] triggers
    add no handler.  Each handler carries the field's name, its own kind
    and the form data of the render, and only the search handler is
    debounced, when [debounceSearch] is [true].  The service props made of
    them hold these handlers under [onBlur], [onFocus] and [onSearch] and
    no other key. *)
Theorem getServiceTriggerProps_by_membership (p : FormItemWrapperProps)
    (formData : store) :
  let triggers := servicesTriggers (formItemMeta p) in
  let handler kind :=
    if bool_decide (kind ∈ triggers) then Some (handler_for p formData kind)
    else None in
  let sp := getServiceTriggerProps p formData in
  sp = {| sp_onBlur := handler onBlur;
          sp_onFocus := handler onFocus;
          sp_onSearch := handler onSearch |}
  ∧ serviceProps_of sp !! "onBlur" = PHandler <$> handler onBlur
  ∧ serviceProps_of sp !! "onFocus" = PHandler <$> handler onFocus
  ∧ serviceProps_of sp !! "onSearch" = PHandler <$> handler onSearch
  ∧ (∀ k, k ≠ "onBlur" -> k ≠ "onFocus" -> k ≠ "onSearch" ->
          serviceProps_of sp !! k = None).
Proof.
  intros triggers handler sp.
  destruct (serviceProps_of_lookup sp) as (Hb & Hf & Hs & Hother).
  assert (Hsp : sp = {| sp_onBlur := handler onBlur;
                        sp_onFocus := handler onFocus;
                        sp_onSearch := handler onSearch |})
    by apply getServiceTriggerProps_fields.
  split; [exact Hsp|].
  rewrite Hb, Hf, Hs. rewrite Hsp at 1 2 3. cbn [sp_onBlur sp_onFocus sp_onSearch].
  auto.
Qed.

(** X10: a handler built by [getServiceTriggerProps] in a render that saw
    the form data [formData] publishes, whenever it runs, exactly one
    service event for the field, with that form data (not the form values
    of the moment at which it runs) and with the arguments of the event. *)
Theorem handlers_publish_render_time_values (p : FormItemWrapperProps)
    (formData : store) (h : Handler) (args : list data) (w : World) :
  let sp := getServiceTriggerProps p formData in
  sp_onBlur sp = Some h ∨ sp_onFocus sp = Some h ∨ sp_onSearch sp = Some h ->
  calls (handler_body p h args w)
  = [CPublishServiceEvent (fieldName (formItemMeta p)) (h_kind h) formData
       (Some args)]
  ∧ h_kind h ∈ servicesTriggers (formItemMeta p)
  ∧ (h_kind h = onBlur ∨ h_kind h = onFocus ∨ h_kind h = onSearch).
Proof.
  intros sp Hh. unfold sp in Hh.
  rewrite (getServiceTriggerProps_fields p formData) in Hh. cbn in Hh.
  destruct Hh as [Hh|[Hh|Hh]]; case_bool_decide as Hin; try discriminate;
    injection Hh as <-; (split; [reflexivity|]); (split; [exact Hin|]); auto.
Qed.

Lemma handlers_publish_render_time_values_witness :
  calls (handler_body (Examples.wrapper Examples.city None)
           (handler_for (Examples.wrapper Examples.city None)
              (formValues Examples.w0) onSearch)
           [DStr "be"] Cases.later)
  = [CPublishServiceEvent "city" onSearch (formValues Examples.w0)
       (Some [DStr "be"])].
Proof.
  destruct (handlers_publish_render_time_values
              (Examples.wrapper Examples.city None) (formValues Examples.w0)
              (handler_for (Examples.wrapper Examples.city None)
                 (formValues Examples.w0) onSearch)
              [DStr "be"] Cases.later) as [Hcalls _].
  - right. right. reflexivity.
  - exact Hcalls.
Defined.

(** ** Widget props *)

Lemma widgetPropsGetter_from_lookup (p : FormItemWrapperProps) (w : World) :
  p_valueGetter p = valueGetter ->
  ∀ entries acc wps,
    NoDup entries.*1 ->
    res (widgetPropsGetter_from p entries acc w) = Ok wps ->
    (∀ k q, (k, q) ∈ entries ->
            ∃ v, res (valueGetter q w) = Ok v ∧ wps !! k = Some v)
    ∧ (∀ k, k ∉ entries.*1 -> wps !! k = acc !! k).
Proof.
  intros Hvg. induction entries as [|[k0 q0] t IH]; intros acc wps Hnd Hres.
  - simpl in Hres. injection Hres as <-. split; [|reflexivity].
    intros k q Hin. apply elem_of_nil in Hin. contradiction.
  - simpl in Hres, Hnd. rewrite Hvg in Hres.
    apply NoDup_cons in Hnd as [Hk0 Hnd].
    destruct (res (valueGetter q0 w)) as [v0|e] eqn:Hq0.
    2:{ rewrite (bind_valueGetter_throw _ _ _ _ Hq0) in Hres. discriminate. }
    rewrite (bind_valueGetter_ok _ _ _ _ Hq0) in Hres.
    destruct (IH _ _ Hnd Hres) as [IHin IHout]. split.
    + intros k q Hin. apply elem_of_cons in Hin as [[= -> ->]|Hin].
      * exists v0. split; [exact Hq0|].
        rewrite (IHout k0 Hk0). apply lookup_insert_eq.
      * apply IHin, Hin.
    + intros k Hk. rewrite fmap_cons, not_elem_of_cons in Hk.
      destruct Hk as [Hne Hk]. simpl in Hne.
      rewrite (IHout k Hk). apply lookup_insert_ne. congruence.
Qed.

(** X11: when the widget props have one entry for each key and
    [widgetPropsGetter] returns, the object it returns has exactly the keys
    of the entries, each with the value its expression evaluates to; a
    literal is kept unchanged. *)
Theorem widgetPropsGetter_entries (p : FormItemWrapperProps) (w : World)
    (entries : list (string * jsval)) (wps : gmap string jsval) :
  p_valueGetter p = valueGetter ->
  NoDup entries.*1 ->
  res (widgetPropsGetter p entries w) = Ok wps ->
  (∀ k q, (k, q) ∈ entries ->
          ∃ v, res (valueGetter q w) = Ok v ∧ wps !! k = Some v)
  ∧ (∀ k d, (k, JData d) ∈ entries -> wps !! k = Some (JData d))
  ∧ (∀ k, k ∉ entries.*1 -> wps !! k = None).
Proof.
  intros Hvg Hnd Hres.
  destruct (widgetPropsGetter_from_lookup p w Hvg entries ∅ wps Hnd Hres)
    as [Hin Hout].
  split; [exact Hin|]. split.
  - intros k d Hk. destruct (Hin _ _ Hk) as (v & Hv & Hlookup).
    simpl in Hv. injection Hv as <-. exact Hlookup.
  - intros k Hk. rewrite (Hout k Hk). apply lookup_empty.
Qed.

Lemma widgetPropsGetter_entries_witness :
  ∃ wps,
    res (widgetPropsGetter (Examples.wrapper Examples.city None)
           Cases.two_props Cases.later) = Ok wps
    ∧ wps !! "disabled" = Some (JData (DBool false))
    ∧ wps !! "placeholder" = Some (JData (DStr "..."))
    ∧ wps !! "size" = None.
Proof.
  exists (<["disabled" := JData (DBool false)]>
            (<["placeholder" := JData (DStr "...")]> ∅)).
  split; [reflexivity|].
  destruct (widgetPropsGetter_entries (Examples.wrapper Examples.city None)
              Cases.later Cases.two_props
              (<["disabled" := JData (DBool false)]>
                 (<["placeholder" := JData (DStr "...")]> ∅))
              eq_refl) as (Hin & Hlit & Hout).
  - repeat constructor; intros H; apply list_elem_of_In in H; simpl in H;
      intuition discriminate.
  - reflexivity.
  - split; [|split].
    + destruct (Hin "disabled" (Examples.country_is "DE")) as (v & Hv & Hl);
        [in_list|].
      simpl in Hv. injection Hv as <-. exact Hl.
    + apply Hlit. in_list.
    + apply Hout. intros H. apply list_elem_of_In in H. simpl in H.
      intuition discriminate.
Defined.

(** X12: the entries of the widget props are evaluated in order and the
    first expression that throws ends [widgetPropsGetter] with its
    exception, whatever the entries after it are. *)
Theorem widgetPropsGetter_first_error (p : FormItemWrapperProps) (w : World)
    (before after : list (string * jsval)) (k : string) (q : jsval)
    (e : error) :
  p_valueGetter p = valueGetter ->
  all_evaluate w before.*2 ->
  res (valueGetter q w) = Throw e ->
  widgetPropsGetter p (before ++ (k, q) :: after) w
  = {| res := Throw e; world := w; calls := [] |}.
Proof.
  intros Hvg Hbefore Hq. unfold widgetPropsGetter. generalize (∅ : gmap string jsval).
  induction before as [|[k0 q0] t IH]; intros acc; simpl; rewrite Hvg.
  - apply (bind_valueGetter_throw _ _ _ _ Hq).
  - destruct (Hbefore q0) as [v0 Hv0]; [simpl; apply elem_of_cons; auto|].
    rewrite (bind_valueGetter_ok _ _ _ _ Hv0). apply IH.
    intros q' Hq'. apply Hbefore. simpl. apply elem_of_cons. auto.
Qed.

Lemma widgetPropsGetter_first_error_witness :
  widgetPropsGetter (Examples.wrapper Examples.city None)
    ([("placeholder", JData (DStr "..."))]
       ++ ("options", Examples.boom) :: [("disabled", Examples.country_is "DE")])
    Examples.w0
  = {| res := Throw (Thrown (DStr "boom")); world := Examples.w0; calls := [] |}.
Proof.
  apply (widgetPropsGetter_first_error (Examples.wrapper Examples.city None)
           Examples.w0 [("placeholder", JData (DStr "..."))]
           [("disabled", Examples.country_is "DE")] "options" Examples.boom
           (Thrown (DStr "boom")) eq_refl).
  - intros q' Hq'. apply list_elem_of_In in Hq'. simpl in Hq'.
    destruct Hq' as [<-|[]]. eexists. reflexivity.
  - reflexivity.
Defined.

(** ** What a successful render holds *)

(** The element of a render of the JSX that returned. *)
Lemma render_col_returns (p : FormItemWrapperProps) (Widget : widget_lookup)
    (sp : gmap string WidgetProp) (w : World) (el : ColElement) :
  p_valueGetter p = valueGetter ->
  res (render_col p Widget sp w) = Ok el ->
  let m := formItemMeta p in
  ∃ h lbl rls wps,
    res (valueGetter (hidden_or_default m) w) = Ok h
    ∧ res (valueGetter (label m) w) = Ok lbl
    ∧ res (valueGetter (rules m) w) = Ok rls
    ∧ res (widgetPropsGetter p (widgetProps m) w) = Ok wps
    ∧ match required m with
      | JData DUndefined => fi_required (col_child el) = None
      | r => ∃ v, res (valueGetter r w) = Ok v
                  ∧ fi_required (col_child el) = Some v
      end
    ∧ col_props el
      = <["span" := if truthy h then DNum 0 else col_span p]>
          (default ∅ (colProps m))
    ∧ col_child el
      = {| fi_name := fieldName m;
           fi_initialValue := initialValue m;
           fi_tooltip := tooltip m;
           fi_label := lbl;
           fi_rules := rls;
           fi_hidden := h;
           fi_colon := colon m;
           fi_extra := extra m;
           fi_labelAlign := labelAlign m;
           fi_trigger := trigger m;
           fi_valuePropName := valuePropName m;
           fi_required := fi_required (col_child el);
           fi_noStyle := noStyle m;
           fi_validateFirst := true;
           fi_child := {| w_type := Widget;
                          w_props := sp ∪ (PValue <$> wps) |} |}.
Proof.
  intros Hvg Hres m. unfold render_col in Hres. fold m in Hres.
  rewrite Hvg in Hres.
  destruct (res (valueGetter (hidden_or_default m) w)) as [h|e] eqn:Hh.
  2:{ rewrite (bind_valueGetter_throw _ _ _ _ Hh) in Hres. discriminate. }
  rewrite (bind_valueGetter_ok _ _ _ _ Hh) in Hres.
  destruct (res (valueGetter (label m) w)) as [lbl|e] eqn:Hl.
  2:{ rewrite (bind_valueGetter_throw _ _ _ _ Hl) in Hres. discriminate. }
  rewrite (bind_valueGetter_ok _ _ _ _ Hl) in Hres.
  destruct (res (valueGetter (rules m) w)) as [rls|e] eqn:Hr.
  2:{ rewrite (bind_valueGetter_throw _ _ _ _ Hr) in Hres. discriminate. }
  rewrite (bind_valueGetter_ok _ _ _ _ Hr) in Hres.
  rewrite (bind_valueGetter_ok _ _ _ _ Hh) in Hres.
  exists h, lbl, rls.
  assert (Hreq : ∃ ro,
    (match required m with
     | JData DUndefined => ret None
     | r => (v ← valueGetter r; ret (Some v))
     end) w = {| res := ro; world := w; calls := [] |}
    ∧ ∀ req, ro = Ok req ->
        match required m with
        | JData DUndefined => req = None
        | r => ∃ v, res (valueGetter r w) = Ok v ∧ req = Some v
        end).
  { assert (Hgen : ∀ r, ∃ ro,
      (v ← valueGetter r; ret (Some v)) w
      = {| res := ro; world := w; calls := [] |}
      ∧ ∀ req, ro = Ok req -> ∃ v, res (valueGetter r w) = Ok v ∧ req = Some v).
    { intros r. destruct (res (valueGetter r w)) as [v|e] eqn:Hv.
      - rewrite (bind_valueGetter_ok _ _ _ _ Hv). eexists.
        split; [reflexivity|]. intros req [= <-]. eauto.
      - rewrite (bind_valueGetter_throw _ _ _ _ Hv). eexists.
        split; [reflexivity|]. discriminate. }
    destruct (required m) as [[]|]; try apply Hgen.
    eexists. split; [reflexivity|]. intros req [= <-]. reflexivity. }
  destruct Hreq as (ro & Hreq & Hreqspec).
  destruct ro as [req|e].
  2:{ rewrite (bind_pure_throw _ _ _ _ Hreq) in Hres. discriminate. }
  rewrite (bind_pure_ok _ _ _ _ Hreq) in Hres.
  specialize (Hreqspec req eq_refl).
  destruct (widgetPropsGetter_from_cases p w Hvg (widgetProps m) ∅)
    as [(wps & Hw & _)|(e & Hw & _)].
  2:{ unfold widgetPropsGetter in Hres.
      rewrite (bind_pure_throw _ _ _ _ Hw) in Hres. discriminate. }
  unfold widgetPropsGetter in *.
  rewrite (bind_pure_ok _ _ _ _ Hw) in Hres.
  injection Hres as <-. exists wps. cbn [col_props col_child fi_required].
  rewrite Hw. cbn [res].
  repeat split; try reflexivity.
  destruct (required m) as [[]|]; exact Hreqspec.
Qed.

(** A render of a field that produced an element went through every
    step. *)
Lemma render_item_returns (p : FormItemWrapperProps) (Widget : widget_lookup)
    (w : World) (el : ColElement) :
  p_valueGetter p = valueGetter ->
  res (render_item p Widget w) = Ok (Some el) ->
  let m := formItemMeta p in
  let derived := calcDerivedValue p (fieldName m) (valueDerived m) w in
  destroy_false w m
  ∧ derived.1 = Ok tt
  ∧ res (render_col p Widget
           (serviceProps_of (getServiceTriggerProps p (formValues derived.2)))
           derived.2) = Ok el.
Proof.
  intros Hvg Hres m derived.
  destruct (render_item_cases p Widget w Hvg)
    as (Hthrow & Hdestroyed & Hderived & Hrendered).
  fold m derived in Hthrow, Hdestroyed, Hderived, Hrendered.
  destruct (res (valueGetter (destroy m) w)) as [v|e] eqn:Hv.
  2:{ rewrite (Hthrow e eq_refl) in Hres. discriminate. }
  destruct (truthy v) eqn:Ht.
  { rewrite Hdestroyed in Hres by (exists v; auto). discriminate. }
  assert (Hfalse : destroy_false w m) by (exists v; auto).
  split; [exact Hfalse|].
  destruct (derived.1) as [[]|e] eqn:Hd.
  2:{ rewrite (Hderived Hfalse e eq_refl) in Hres. discriminate. }
  split; [reflexivity|].
  destruct (render_col_cases p Widget
              (serviceProps_of (getServiceTriggerProps p (formValues derived.2)))
              derived.2 Hvg)
    as [(el' & h & Hcol & _)|(e & Hcol & _)].
  - rewrite (Hrendered Hfalse eq_refl _ Hcol) in Hres. cbn in Hres.
    injection Hres as <-. rewrite Hcol. reflexivity.
  - rewrite (Hrendered Hfalse eq_refl _ Hcol) in Hres. discriminate.
Qed.

Lemma serviceProps_of_declared (p : FormItemWrapperProps) (formData : store) :
  let handler kind :=
    if bool_decide (kind ∈ servicesTriggers (formItemMeta p))
    then Some (PHandler (handler_for p formData kind)) else None in
  let sp := getServiceTriggerProps p formData in
  serviceProps_of sp !! "onBlur" = handler onBlur
  ∧ serviceProps_of sp !! "onFocus" = handler onFocus
  ∧ serviceProps_of sp !! "onSearch" = handler onSearch
  ∧ ∀ k, k ≠ "onBlur" -> k ≠ "onFocus" -> k ≠ "onSearch" ->
         serviceProps_of sp !! k = None.
Proof.
  intros handler sp.
  destruct (serviceProps_of_lookup sp) as (Hb & Hf & Hs & Hother).
  split; [|split; [|split]]; [| | |exact Hother].
  - rewrite Hb. unfold sp, handler.
    rewrite (getServiceTriggerProps_fields p formData). cbn [sp_onBlur].
    destruct (bool_decide (onBlur ∈ _)); reflexivity.
  - rewrite Hf. unfold sp, handler.
    rewrite (getServiceTriggerProps_fields p formData). cbn [sp_onFocus].
    destruct (bool_decide (onFocus ∈ _)); reflexivity.
  - rewrite Hs. unfold sp, handler.
    rewrite (getServiceTriggerProps_fields p formData). cbn [sp_onSearch].
    destruct (bool_decide (onSearch ∈ _)); reflexivity.
Qed.

(** X13: with the renderer's [valueGetter], rendering a field calls
    [calcDerivedValue] exactly once when the [destroy] expression evaluates
    to a falsy value, whether or not the rest of the render then throws,
    and calls nothing at all otherwise; rendering never publishes a service
    event and never reports a warning.  Only the derived-value callback can
    change the form values or the extra-state during a render. *)
Theorem render_item_calls (p : FormItemWrapperProps) (Widget : widget_lookup)
    (w : World) :
  p_valueGetter p = valueGetter ->
  let m := formItemMeta p in
  let derived := calcDerivedValue p (fieldName m) (valueDerived m) w in
  (destroy_false w m ->
     calls (render_item p Widget w)
     = [CCalcDerivedValue (fieldName m) (valueDerived m)]
     ∧ world (render_item p Widget w) = derived.2)
  ∧ (¬ destroy_false w m ->
     calls (render_item p Widget w) = []
     ∧ world (render_item p Widget w) = w).
Proof.
  intros Hvg m derived.
  destruct (render_item_cases p Widget w Hvg)
    as (Hthrow & Hdestroyed & Hderived & Hrendered).
  fold m derived in Hthrow, Hdestroyed, Hderived, Hrendered.
  split.
  - intros Hfalse.
    destruct (derived.1) as [[]|e] eqn:Hd.
    + destruct (render_col_cases p Widget
                  (serviceProps_of
                     (getServiceTriggerProps p (formValues derived.2)))
                  derived.2 Hvg)
        as [(el & h & Hcol & _)|(e & Hcol & _)];
        rewrite (Hrendered Hfalse eq_refl _ Hcol); auto.
    + rewrite (Hderived Hfalse e eq_refl). auto.
  - intros Hnot.
    destruct (res (valueGetter (destroy m) w)) as [v|e] eqn:Hv.
    + destruct (truthy v) eqn:Ht.
      * rewrite Hdestroyed by (exists v; auto). auto.
      * exfalso. apply Hnot. exists v. auto.
    + rewrite (Hthrow e eq_refl). auto.
Qed.

Lemma render_item_calls_witness :
  calls (render_item (Examples.wrapper Examples.note None)
           (LFound (Component "Input")) Examples.w0)
  = [CCalcDerivedValue "note" (JData DUndefined)]
  ∧ calls (render_item (Examples.wrapper Examples.zip None)
             (LFound (Component "Input")) Examples.w0) = [].
Proof.
  split.
  - destruct (render_item_calls (Examples.wrapper Examples.note None)
                (LFound (Component "Input")) Examples.w0 eq_refl) as [Hlive _].
    apply Hlive. eexists; split; reflexivity.
  - destruct (render_item_calls (Examples.wrapper Examples.zip None)
                (LFound (Component "Input")) Examples.w0 eq_refl) as [_ Hgone].
    apply Hgone. intros (v & Hv & Ht). simpl in Hv. injection Hv as <-.
    discriminate Ht.
Defined.

(** X14: in the element of a successful render, the widget is the resolved
    one and its props are the evaluated widget props overridden by the
    service handlers: for a declared blur, focus or search trigger the prop
    of that name is the handler, built with the form values read after the
    derived-value callback, whatever the widget props say under that name;
    an entry of the widget props under any other name (one entry for each
    key) is there with the value its expression evaluates to. *)
Theorem render_item_widget_props (p : FormItemWrapperProps)
    (Widget : widget_lookup) (w : World) (el : ColElement) :
  p_valueGetter p = valueGetter ->
  res (render_item p Widget w) = Ok (Some el) ->
  let m := formItemMeta p in
  let derived := calcDerivedValue p (fieldName m) (valueDerived m) w in
  let props := w_props (fi_child (col_child el)) in
  let handler kind :=
    if bool_decide (kind ∈ servicesTriggers m)
    then Some (PHandler (handler_for p (formValues derived.2) kind)) else None in
  w_type (fi_child (col_child el)) = Widget
  ∧ (onBlur ∈ servicesTriggers m -> props !! "onBlur" = handler onBlur)
  ∧ (onFocus ∈ servicesTriggers m -> props !! "onFocus" = handler onFocus)
  ∧ (onSearch ∈ servicesTriggers m -> props !! "onSearch" = handler onSearch)
  ∧ (∀ k q, NoDup (widgetProps m).*1 ->
            (k, q) ∈ widgetProps m ->
            handler onBlur = None ∨ k ≠ "onBlur" ->
            handler onFocus = None ∨ k ≠ "onFocus" ->
            handler onSearch = None ∨ k ≠ "onSearch" ->
            ∃ v, res (valueGetter q derived.2) = Ok v
                 ∧ props !! k = Some (PValue v)).
Proof.
  intros Hvg Hres m derived props handler.
  destruct (render_item_returns p Widget w el Hvg Hres) as (_ & _ & Hcol).
  fold m derived in Hcol.
  destruct (render_col_returns p Widget _ derived.2 el Hvg Hcol)
    as (h & lbl & rls & wps & _ & _ & _ & Hwps & _ & _ & Hchild).
  fold m in Hwps, Hchild.
  set (sp := getServiceTriggerProps p (formValues derived.2)) in *.
  assert (Hprops : props = serviceProps_of sp ∪ (PValue <$> wps))
    by (unfold props; rewrite Hchild; reflexivity).
  assert (Hty : w_type (fi_child (col_child el)) = Widget)
    by (rewrite Hchild; reflexivity).
  clearbody props. subst props.
  destruct (serviceProps_of_declared p (formValues derived.2))
    as (Hb' & Hf' & Hs' & Hother).
  fold m sp handler in Hb', Hf', Hs', Hother.
  split; [exact Hty|].
  split; [|split; [|split]].
  - intros Hin. rewrite lookup_union, Hb'. unfold handler.
    rewrite bool_decide_eq_true_2 by exact Hin.
    destruct ((PValue <$> wps) !! "onBlur"); reflexivity.
  - intros Hin. rewrite lookup_union, Hf'. unfold handler.
    rewrite bool_decide_eq_true_2 by exact Hin.
    destruct ((PValue <$> wps) !! "onFocus"); reflexivity.
  - intros Hin. rewrite lookup_union, Hs'. unfold handler.
    rewrite bool_decide_eq_true_2 by exact Hin.
    destruct ((PValue <$> wps) !! "onSearch"); reflexivity.
  - intros k q Hnd Hk Hkb Hkf Hks.
    destruct (widgetPropsGetter_from_lookup p derived.2 Hvg (widgetProps m) ∅
                wps Hnd Hwps) as [Hin _].
    destruct (Hin k q Hk) as (v & Hv & Hlookup).
    exists v. split; [exact Hv|].
    assert (Hnone : serviceProps_of sp !! k = None).
    { destruct (decide (k = "onBlur")) as [->|Hnb];
        [rewrite Hb'; destruct Hkb; [assumption|congruence]|].
      destruct (decide (k = "onFocus")) as [->|Hnf];
        [rewrite Hf'; destruct Hkf; [assumption|congruence]|].
      destruct (decide (k = "onSearch")) as [->|Hns];
        [rewrite Hs'; destruct Hks; [assumption|congruence]|].
      apply Hother; assumption. }
    rewrite lookup_union, Hnone, lookup_fmap, Hlookup. reflexivity.
Qed.

Lemma render_item_widget_props_witness :
  ∃ el,
    res (render_item (Examples.wrapper Cases.searchable None)
           (LFound (Component "Select")) Examples.w0) = Ok (Some el)
    ∧ w_props (fi_child (col_child el)) !! "onSearch"
      = Some (PHandler (handler_for (Examples.wrapper Cases.searchable None)
                          (formValues Examples.w0) onSearch))
    ∧ w_props (fi_child (col_child el)) !! "placeholder"
      = Some (PValue (JData (DStr "..."))).
Proof.
  eexists. split; [vm_compute; reflexivity|].
  match goal with
  | |- w_props (fi_child (col_child ?el)) !! _ = _ ∧ _ =>
      destruct (render_item_widget_props (Examples.wrapper Cases.searchable None)
                  (LFound (Component "Select")) Examples.w0 el eq_refl
                  ltac:(vm_compute; reflexivity))
        as (_ & _ & _ & Hsearch & Hplain)
  end.
  split.
  - apply Hsearch. in_list.
  - destruct (Hplain "placeholder" (JData (DStr "..."))) as (v & Hv & Hl).
    + repeat constructor; intros H; apply list_elem_of_In in H; simpl in H;
        intuition discriminate.
    + in_list.
    + right. discriminate.
    + right. discriminate.
    + right. discriminate.
    + simpl in Hv. injection Hv as <-. exact Hl.
Defined.

(** X15: in the element of a successful render, the form item is
    registered under the field's name with [validateFirst] set and takes
    [hidden] from the evaluated expression, [false] when the metadata has no
    [hidden]; the column spans 0 when that value is truthy and
    [colProps?.span ?? defaultSpan] otherwise, and every other key of
    [colProps] is passed on unchanged; the [required] prop is passed
    exactly when the metadata defines [required]. *)
Theorem render_item_layout (p : FormItemWrapperProps) (Widget : widget_lookup)
    (w : World) (el : ColElement) :
  p_valueGetter p = valueGetter ->
  res (render_item p Widget w) = Ok (Some el) ->
  let m := formItemMeta p in
  let derived := calcDerivedValue p (fieldName m) (valueDerived m) w in
  let h := fi_hidden (col_child el) in
  res (valueGetter (hidden_or_default m) derived.2) = Ok h
  ∧ (hidden m = JData DUndefined -> h = JData (DBool false))
  ∧ col_props el !! "span" = Some (if truthy h then DNum 0 else col_span p)
  ∧ (∀ k, k ≠ "span" -> col_props el !! k = default ∅ (colProps m) !! k)
  ∧ (fi_required (col_child el) = None ↔ required m = JData DUndefined)
  ∧ fi_name (col_child el) = fieldName m
  ∧ fi_initialValue (col_child el) = initialValue m
  ∧ fi_validateFirst (col_child el) = true.
Proof.
  intros Hvg Hres m derived h.
  destruct (render_item_returns p Widget w el Hvg Hres) as (_ & _ & Hcol).
  fold m derived in Hcol.
  destruct (render_col_returns p Widget _ derived.2 el Hvg Hcol)
    as (h' & lbl & rls & wps & Hh & _ & _ & _ & Hreq & Hprops & Hchild).
  fold m in Hh, Hreq, Hprops, Hchild.
  assert (Hhid : h = h') by (unfold h; rewrite Hchild; reflexivity).
  assert (Hname : fi_name (col_child el) = fieldName m)
    by (rewrite Hchild; reflexivity).
  assert (Hinit : fi_initialValue (col_child el) = initialValue m)
    by (rewrite Hchild; reflexivity).
  assert (Hfirst : fi_validateFirst (col_child el) = true)
    by (rewrite Hchild; reflexivity).
  clearbody h. subst h'.
  split; [exact Hh|]. split.
  { intros Hundef. unfold hidden_or_default in Hh. rewrite Hundef in Hh.
    simpl in Hh. injection Hh as <-. reflexivity. }
  split; [rewrite Hprops; apply lookup_insert_eq|].
  split; [intros k Hk; rewrite Hprops; apply lookup_insert_ne; congruence|].
  split; [|auto].
  split.
  - intros Hnone. destruct (required m) as [[]|]; try reflexivity;
      destruct Hreq as (v & _ & Hsome); congruence.
  - intros Hundef. rewrite Hundef in Hreq. exact Hreq.
Qed.

Lemma render_item_layout_witness :
  ∃ el,
    res (render_item (Examples.wrapper Cases.searchable None)
           (LFound (Component "Select")) Examples.w0) = Ok (Some el)
    ∧ fi_hidden (col_child el) = JData (DBool false)
    ∧ col_props el !! "span" = Some (DNum 12)
    ∧ col_props el !! "offset" = Some (DNum 2)
    ∧ fi_required (col_child el) ≠ None.
Proof.
  eexists. split; [vm_compute; reflexivity|].
  match goal with
  | |- fi_hidden (col_child ?el) = _ ∧ _ =>
      destruct (render_item_layout (Examples.wrapper Cases.searchable None)
                  (LFound (Component "Select")) Examples.w0 el eq_refl
                  ltac:(vm_compute; reflexivity))
        as (_ & Hdefault & Hspan & Hkeys & Hrequired & _)
  end.
  split; [apply Hdefault; reflexivity|].
  split; [rewrite Hspan; reflexivity|].
  split; [rewrite Hkeys by discriminate; reflexivity|].
  intros Hnone. apply Hrequired in Hnone. discriminate Hnone.
Defined.

(** ** The extra-state of a loaded configuration *)

(** X16: the extra-state that loading a configuration installs always has
    a [serviceLoading] entry that is neither [undefined] nor [null]: the
    caller's own when the defaults bring one, the empty object otherwise.
    Every other key is taken from the defaults as it is, and with no
    defaults at all the extra-state is exactly [{serviceLoading: {}}]. *)
Theorem configExtraData_serviceLoading (defaultExtraData : option store) :
  let d := default ∅ defaultExtraData in
  (∃ v, configExtraData defaultExtraData !! "serviceLoading" = Some v
        ∧ nullish_data v = false
        ∧ (nullish_data (get_prop d "serviceLoading") = false ->
           v = get_prop d "serviceLoading")
        ∧ (nullish_data (get_prop d "serviceLoading") = true -> v = DObj ∅))
  ∧ (∀ k, k ≠ "serviceLoading" ->
          configExtraData defaultExtraData !! k = d !! k)
  ∧ (defaultExtraData = None ->
     configExtraData defaultExtraData = {[ "serviceLoading" := DObj ∅ ]}).
Proof.
  intros d. unfold configExtraData. fold d. split; [|split].
  - eexists. split; [apply lookup_insert_eq|]. unfold coalesce_data.
    destruct (nullish_data (get_prop d "serviceLoading")) eqn:Hn.
    + split; [reflexivity|]. split; [discriminate|reflexivity].
    + split; [exact Hn|]. split; [reflexivity|discriminate].
  - intros k Hk. apply lookup_insert_ne. congruence.
  - intros ->. reflexivity.
Qed.

(** X17: on a configuration loaded with the defaults [d], the deferred
    merge of the same defaults leaves every key other than [serviceLoading]
    as it is, and leaves [serviceLoading] as it is unless [d] has that key:
    then the value of [d] comes back, even an [undefined] or [null] that
    the load had replaced by the empty object. *)
Theorem load_then_merge_defaults (d : store) (w : World) :
  extraData w = configExtraData (Some d) ->
  let w' := world (defaultExtraData_timeout d w) in
  (∀ k, k ≠ "serviceLoading" -> extraData w' !! k = extraData w !! k)
  ∧ extraData w' !! "serviceLoading"
    = match d !! "serviceLoading" with
      | Some v => Some v
      | None => Some (DObj ∅)
      end
  ∧ (∀ v, d !! "serviceLoading" = Some v -> nullish_data v = true ->
          extraData w !! "serviceLoading" = Some (DObj ∅)
          ∧ extraData w' !! "serviceLoading" = Some v).
Proof.
  intros Hloaded w'.
  assert (Hmerge : ∀ k, extraData w' !! k
                        = match d !! k with
                          | Some v => Some v
                          | None => extraData w !! k
                          end).
  { intros k. unfold w'. simpl. unfold spread2. rewrite lookup_union.
    destruct (d !! k), (extraData w !! k); reflexivity. }
  assert (Hconfig : ∀ k, k ≠ "serviceLoading" -> extraData w !! k = d !! k).
  { intros k Hk. rewrite Hloaded. unfold configExtraData. simpl.
    apply lookup_insert_ne. congruence. }
  split; [|split].
  - intros k Hk. rewrite Hmerge, (Hconfig k Hk). destruct (d !! k); reflexivity.
  - rewrite Hmerge. destruct (d !! "serviceLoading") as [v|] eqn:Hd;
      [reflexivity|].
    rewrite Hloaded. unfold configExtraData. simpl. rewrite lookup_insert_eq.
    unfold get_prop. rewrite Hd. reflexivity.
  - intros v Hd Hnull. split.
    + rewrite Hloaded. unfold configExtraData. simpl. rewrite lookup_insert_eq.
      unfold coalesce_data, get_prop. rewrite Hd. simpl. rewrite Hnull.
      reflexivity.
    + rewrite Hmerge, Hd. reflexivity.
Qed.

Lemma load_then_merge_defaults_witness :
  extraData Cases.loaded_null !! "serviceLoading" = Some (DObj ∅)
  ∧ extraData (world (defaultExtraData_timeout Cases.null_loading
                        Cases.loaded_null)) !! "serviceLoading" = Some DNull.
Proof.
  destruct (load_then_merge_defaults Cases.null_loading Cases.loaded_null
              eq_refl) as (_ & _ & Hnull).
  apply (Hnull DNull); reflexivity.
Defined.

(** ** Mounting a field that renders *)

Lemma calls_bind_ret {A B} (m : M A) (x : B) (w : World) :
  calls (bind m (fun _ => ret x) w) = calls (m w).
Proof.
  unfold bind. destruct (res (m w)); cbn [calls ret]; rewrite ?app_nil_r;
    reflexivity.
Qed.

(** X18: mounting a field's component resolves the widget, renders, lets
    the form engine register what was rendered, and then runs the mount
    effect: when the render returns, the [onMount] service event (if
    [onMount] is among the triggers) is published last, after the
    derived-value callback, with the form values as they are once the
    rendered item has been registered; when the render throws, the
    exception propagates and no [onMount] event is published. *)
Theorem mount_publishes_after_render
    (register : FormItemElement -> World -> World)
    (internalWidgets : string -> widget_lookup)
    (p : FormItemWrapperProps) (w : World) (Widget : widget_lookup) :
  res (resolveWidget internalWidgets p w) = Ok Widget ->
  let m := formItemMeta p in
  let resolved := resolveWidget internalWidgets p w in
  let rendered := render_item p Widget w in
  (∀ r, res rendered = Ok r ->
     calls (FormItemWrapper_mount register internalWidgets p w)
     = calls resolved ++ calls rendered
       ++ (if bool_decide (onMount ∈ servicesTriggers m)
           then [CPublishServiceEvent (fieldName m) onMount
                   (formValues
                      (world (commit_element register r (world rendered))))
                   None]
           else []))
  ∧ (∀ e, res rendered = Throw e ->
     calls (FormItemWrapper_mount register internalWidgets p w)
     = calls resolved ++ calls rendered
     ∧ res (FormItemWrapper_mount register internalWidgets p w) = Throw e).
Proof.
  intros HW m resolved rendered.
  destruct (resolveWidget_world internalWidgets p w) as [Hw _].
  unfold FormItemWrapper_mount.
  rewrite (bind_ok _ _ _ _ HW). cbv beta. rewrite Hw.
  fold resolved. fold rendered.
  cbn [res world calls]. split.
  - intros r Hr. rewrite (bind_ok _ _ _ _ Hr). cbn [res world calls].
    rewrite (bind_ok (commit_element register r) _ _ tt) by reflexivity.
    cbn [res world calls app].
    rewrite calls_bind_ret, mountEffect_calls. reflexivity.
  - intros e He. rewrite (bind_throw _ _ _ _ He). cbn [res world calls]. auto.
Qed.

Lemma mount_publishes_after_render_witness :
  calls (FormItemWrapper_mount Examples.fill_initial Examples.internalWidgets
           (Examples.wrapper Cases.capital None) Examples.w0)
  = [CCalcDerivedValue "city" (JData DUndefined);
     CPublishServiceEvent "city" onMount
       (<["city" := DStr "Berlin"]> (formValues Examples.w0)) None]
  ∧ calls (FormItemWrapper_mount Examples.fill_initial Examples.internalWidgets
             (Examples.wrapper Examples.note None) Examples.w0)
    = [CCalcDerivedValue "note" (JData DUndefined)].
Proof.
  split.
  - destruct (mount_publishes_after_render Examples.fill_initial
                Examples.internalWidgets
                (Examples.wrapper Cases.capital None) Examples.w0
                (LFound (Component "Input")) eq_refl) as [Hok _].
    rewrite (Hok _ ltac:(vm_compute; reflexivity)). reflexivity.
  - destruct (mount_publishes_after_render Examples.fill_initial
                Examples.internalWidgets
                (Examples.wrapper Examples.note None) Examples.w0
                (LFound (Component "Input")) eq_refl) as [_ Hthrow].
    destruct (Hthrow (Thrown (DStr "boom")) eq_refl) as [Hcalls _].
    rewrite Hcalls. reflexivity.
Defined.
